(** * SmartSpend: transaction normalisation and spending insights

    A shallow embedding of the backend's [computeInsights], of the
    [/api/insights] and [/api/upload-csv] record normalisers and of the
    frontend's bank-record mapping, together with the properties the
    specification states about them.

    Numbers are modelled as exact rationals plus [NaN]: the rounding,
    the overflow and the infinities of IEEE doubles are outside the model.
    [console.log] output is not modelled, and of [dayjs] only whether the
    call returns. *)

From Stdlib Require Import List String Ascii Bool Arith ZArith NArith QArith Qabs Lia Lqa.
From Stdlib Require Import Permutation Sorted.
Import ListNotations.

Local Open Scope string_scope.
Local Open Scope Q_scope.
Local Set Warnings "-register-all".

(* ================================================================== *)
(** * JavaScript values *)

Module JS.

(** The values that JSON bodies, CSV rows and the accumulator object can
    hold.  [VNative src] stands for a built-in function or object reached
    through a prototype; [src] is the text it converts to. *)
Inductive jsval : Type :=
| VUndefined
| VNull
| VBool (b : bool)
| VNaN
| VNum (q : Q)
| VStr (s : string)
| VArr (elems : list jsval)
| VObj (props : list (string * jsval))
| VNative (src : string).

Inductive exn : Type := TypeError.

Inductive result (A : Type) : Type :=
| Ok (a : A)
| Throw (e : exn).
Arguments Ok {A} a.
Arguments Throw {A} e.

Definition bind {A B} (x : result A) (f : A -> result B) : result B :=
  match x with
  | Ok a => f a
  | Throw e => Throw e
  end.

Notation "x <- c1 ;; c2" := (bind c1 (fun x => c2))
  (at level 61, c1 at next level, right associativity).

(** Lazy [x || y] over reads that may throw. *)
Definition orelse_ {V} (truth : V -> bool) (x y : result V) : result V :=
  a <- x ;; if truth a then Ok a else y.

Fixpoint mapM {A B} (f : A -> result B) (l : list A) : result (list B) :=
  match l with
  | [] => Ok []
  | a :: l' => b <- f a ;; bs <- mapM f l' ;; Ok (b :: bs)
  end.

(** The two number/string conversions of the language that the model takes
    as given: [Number::toString] and [StringToNumber] ([None] is NaN). *)
Class Builtins : Type := {
  NumberToString : Q -> string;
  StringToNumber : string -> option Q
}.

Definition Qeqb0 (q : Q) : bool := Qeq_bool q 0.
Definition Qltb (x y : Q) : bool := negb (Qle_bool y x).

(** ToBoolean *)
Definition truthy (v : jsval) : bool :=
  match v with
  | VUndefined | VNull | VNaN => false
  | VBool b => b
  | VNum q => negb (Qeqb0 q)
  | VStr s => negb (s =? "")%string
  | VArr _ | VObj _ | VNative _ => true
  end.

Definition orelse : result jsval -> result jsval -> result jsval := orelse_ truthy.

Infix "<||>" := orelse (at level 55, right associativity).

(** [a || b] and [a && b] on values already evaluated. *)
Definition jsor (a b : jsval) : jsval := if truthy a then a else b.
Definition jsand (a b : jsval) : jsval := if truthy a then b else a.

Definition isArray (v : jsval) : bool :=
  match v with VArr _ => true | _ => false end.

Definition nullish (v : jsval) : bool :=
  match v with VUndefined | VNull => true | _ => false end.

(** ** Array indices and property order *)

Definition digit_of (c : ascii) : option N :=
  let n := N_of_ascii c in
  if ((48 <=? n) && (n <=? 57))%N then Some (n - 48)%N else None.

Fixpoint digits_value (s : string) (acc : N) : option N :=
  match s with
  | EmptyString => Some acc
  | String c s' =>
      match digit_of c with
      | Some d => digits_value s' (10 * acc + d)%N
      | None => None
      end
  end.

(** A property key is an array index when it is the canonical decimal
    numeral of an integer below 2^32 - 1. *)
Definition array_index (s : string) : option N :=
  match s with
  | EmptyString => None
  | String c s' =>
      if ((c =? "0")%char && negb (s' =? "")%string) then None
      else match digits_value s 0 with
           | Some n => if (n <? 4294967295)%N then Some n else None
           | None => None
           end
  end.

Definition is_index (s : string) : bool :=
  match array_index s with Some _ => true | None => false end.

Definition index_of (s : string) : N :=
  match array_index s with Some n => n | None => 0%N end.

Section Props.
Context {V : Type}.

Fixpoint lookup (k : string) (o : list (string * V)) : option V :=
  match o with
  | [] => None
  | (k', v) :: o' => if (k =? k')%string then Some v else lookup k o'
  end.

(** Update in place when the key exists, append otherwise: the creation
    order of properties is kept. *)
Fixpoint update (k : string) (v : V) (o : list (string * V)) : list (string * V) :=
  match o with
  | [] => [(k, v)]
  | (k', v') :: o' =>
      if (k =? k')%string then (k, v) :: o' else (k', v') :: update k v o'
  end.

Fixpoint insert_index (e : string * V) (l : list (string * V)) : list (string * V) :=
  match l with
  | [] => [e]
  | e' :: l' =>
      if (index_of (fst e') <=? index_of (fst e))%N
      then e' :: insert_index e l'
      else e :: l
  end.

Definition sort_index (l : list (string * V)) : list (string * V) :=
  fold_left (fun acc e => insert_index e acc) l [].

(** OrdinaryOwnPropertyKeys: array indices in ascending numeric order,
    then the other string keys in creation order. *)
Definition own_entries (o : list (string * V)) : list (string * V) :=
  sort_index (filter (fun e => is_index (fst e)) o)
  ++ filter (fun e => negb (is_index (fst e))) o.
End Props.

Section Conversions.
Context {B : Builtins}.

(** ToString.  [Array.prototype.join] renders [null] and [undefined]
    elements as the empty string. *)
Fixpoint ToString (v : jsval) : string :=
  match v with
  | VUndefined => "undefined"
  | VNull => "null"
  | VBool true => "true"
  | VBool false => "false"
  | VNaN => "NaN"
  | VNum q => NumberToString q
  | VStr s => s
  | VArr l =>
      (fix join (l : list jsval) : string :=
         match l with
         | [] => ""
         | x :: l' =>
             let sx := match x with
                       | VUndefined | VNull => ""
                       | _ => ToString x
                       end in
             match l' with
             | [] => sx
             | _ :: _ => sx ++ "," ++ join l'
             end
         end) l
  | VObj _ => "[object Object]"
  | VNative src => src
  end.

(** ToNumber; [None] is NaN.  Objects go through their string form. *)
Definition ToNumber (v : jsval) : option Q :=
  match v with
  | VUndefined | VNaN => None
  | VNull => Some 0
  | VBool true => Some 1
  | VBool false => Some 0
  | VNum q => Some q
  | VStr s => StringToNumber s
  | VArr _ | VObj _ | VNative _ => StringToNumber (ToString v)
  end.

(** Converting an object to a primitive calls its [toString]; in JSON
    data an own [toString] property is never a function, and the
    conversion then raises a TypeError.  Arrays convert their elements. *)
Fixpoint convertible (v : jsval) : bool :=
  match v with
  | VObj o =>
      match lookup "toString" o with Some _ => false | None => true end
  | VArr l =>
      (fix all (l : list jsval) : bool :=
         match l with
         | [] => true
         | x :: l' => convertible x && all l'
         end) l
  | _ => true
  end.

(** ToPropertyKey, a template substitution, [Number(v)] and
    [v.toString()] with their failure. *)
Definition ToPropertyKey (v : jsval) : result string :=
  if convertible v then Ok (ToString v) else Throw TypeError.

Definition interpolate (v : jsval) : result string :=
  if convertible v then Ok (ToString v) else Throw TypeError.

Definition Number (v : jsval) : result (option Q) :=
  if convertible v then Ok (ToNumber v) else Throw TypeError.

Definition toString (v : jsval) : result string :=
  if nullish v then Throw TypeError
  else if convertible v then Ok (ToString v) else Throw TypeError.

Definition of_number (n : option Q) : jsval :=
  match n with Some q => VNum q | None => VNaN end.

(** The [+] operator: concatenation as soon as one operand converts to a
    string primitive, numeric addition otherwise. *)
Definition is_stringy (v : jsval) : bool :=
  match v with
  | VStr _ | VArr _ | VObj _ | VNative _ => true
  | _ => false
  end.

Definition jsadd (a b : jsval) : jsval :=
  if is_stringy a || is_stringy b
  then VStr (ToString a ++ ToString b)
  else match ToNumber a, ToNumber b with
       | Some x, Some y => VNum (x + y)
       | _, _ => VNaN
       end.

(** The [-] operator, as a number. *)
Definition jssub (a b : jsval) : option Q :=
  match ToNumber a, ToNumber b with
  | Some x, Some y => Some (x - y)
  | _, _ => None
  end.

Fixpoint string_chars (s : string) : list jsval :=
  match s with
  | EmptyString => []
  | String c s' => VStr (String c EmptyString) :: string_chars s'
  end.

(** Property read [v[k]] without the null check: own properties of plain
    objects, elements and [length] of arrays and strings.  None of the
    fixed names this program reads is a member of a built-in prototype. *)
Definition prop (v : jsval) (k : string) : jsval :=
  match v with
  | VObj o => match lookup k o with Some x => x | None => VUndefined end
  | VArr l =>
      if (k =? "length")%string then VNum (inject_Z (Z.of_nat (List.length l)))
      else match array_index k with
           | Some i => nth (N.to_nat i) l VUndefined
           | None => VUndefined
           end
  | VStr s =>
      if (k =? "length")%string then VNum (inject_Z (Z.of_nat (String.length s)))
      else match array_index k with
           | Some i => nth (N.to_nat i) (string_chars s) VUndefined
           | None => VUndefined
           end
  | _ => VUndefined
  end.

(** Property read [v.k]: a TypeError on [null] and [undefined]. *)
Definition get (v : jsval) (k : string) : result jsval :=
  if nullish v then Throw TypeError else Ok (prop v k).

(** Optional chaining [v?.k]. *)
Definition optget (v : jsval) (k : string) : jsval :=
  if nullish v then VUndefined else prop v k.

Fixpoint index_keys (n : nat) (i : N) : list string :=
  match n with
  | O => []
  | S n' => NumberToString (inject_Z (Z.of_N i)) :: index_keys n' (N.succ i)
  end.

(** [Object.keys] *)
Definition Object_keys (v : jsval) : result (list string) :=
  match v with
  | VUndefined | VNull => Throw TypeError
  | VObj o => Ok (map fst (own_entries o))
  | VArr l => Ok (index_keys (List.length l) 0)
  | VStr s => Ok (index_keys (String.length s) 0)
  | _ => Ok []
  end.
End Conversions.

(** ** [String.prototype.replace(/[^\d.-]/g, '')] and [parseFloat] *)

Definition is_digit (c : ascii) : bool :=
  match digit_of c with Some _ => true | None => false end.

(** The characters the class [[\d.-]] accepts. *)
Definition numeric_char (c : ascii) : bool :=
  is_digit c || (c =? ".")%char || (c =? "-")%char.

Fixpoint replace_non_numeric (s : string) : string :=
  match s with
  | EmptyString => EmptyString
  | String c s' =>
      if numeric_char c then String c (replace_non_numeric s')
      else replace_non_numeric s'
  end.

Definition is_space (c : ascii) : bool :=
  let n := N_of_ascii c in
  ((9 <=? n) && (n <=? 13) || (n =? 32))%N.

Fixpoint skip_spaces (s : string) : string :=
  match s with
  | String c s' => if is_space c then skip_spaces s' else s
  | EmptyString => EmptyString
  end.

(** Longest run of decimal digits at the head of [s]: its value, its
    length and the remainder. *)
Fixpoint take_digits (s : string) (acc : N) (len : nat) : N * nat * string :=
  match s with
  | EmptyString => (acc, len, EmptyString)
  | String c s' =>
      match digit_of c with
      | Some d => take_digits s' (10 * acc + d)%N (S len)
      | None => (acc, len, s)
      end
  end.

Definition decimal_value (neg : bool) (ip fp : N) (flen : nat) : Q :=
  let scale := (10 ^ N.of_nat flen)%N in
  let m := Z.of_N (ip * scale + fp) in
  Qred (Qmake (if neg then - m else m) (Z.to_pos (Z.of_N scale))).

Definition split_sign (s : string) : bool * string :=
  match s with
  | String c r =>
      if (c =? "-")%char then (true, r)
      else if (c =? "+")%char then (false, r)
      else (false, s)
  | EmptyString => (false, s)
  end.

Definition after_point (s : string) : option string :=
  match s with
  | String c r => if (c =? ".")%char then Some r else None
  | EmptyString => None
  end.

(** [parseFloat]: leading white space, an optional sign, then the longest
    prefix [digits [. digits]] or [. digits]; [None] is NaN.  The exponent
    and [Infinity] forms of the grammar need a letter, which the strings
    this program parses never contain: they come out of
    [replace_non_numeric]. *)
Definition parseFloat (s : string) : option Q :=
  let '(neg, s1) := split_sign (skip_spaces s) in
  let '(ip, ilen, s2) := take_digits s1 0 0 in
  let '(fp, flen, _) :=
    match after_point s2 with
    | Some r => take_digits r 0 0
    | None => (0%N, O, s2)
    end in
  match ilen, flen with
  | O, O => None
  | _, _ => Some (decimal_value neg ip fp flen)
  end.

End JS.

(* ================================================================== *)
(** * The backend *)

Module Backend.
Import JS.

Record CategoryTotal : Type := { name : string; total : jsval }.
Record Insights : Type := {
  totalThisMonth : Q;
  topCategories : list CategoryTotal
}.

(** What a route answers: [res.json({ insights })],
    [res.json({ transactions })] or [res.status(n).json({ error })]. *)
Inductive response : Type :=
| InsightsJson (insights : Insights)
| TransactionsJson (transactions : list jsval)
| ErrorJson (status : nat) (error : string).

(** The one piece of state the server keeps between requests. *)
Record server : Type := { ACCESS_TOKEN : option string }.

(** The members every object literal inherits from [Object.prototype],
    each with the text it converts to. *)
Definition native_function (n : string) : jsval :=
  VNative ("function " ++ n ++ "() { [native code] }").

Definition Object_prototype : list (string * jsval) :=
  [ ("constructor", native_function "Object");
    ("__defineGetter__", native_function "__defineGetter__");
    ("__defineSetter__", native_function "__defineSetter__");
    ("hasOwnProperty", native_function "hasOwnProperty");
    ("__lookupGetter__", native_function "__lookupGetter__");
    ("__lookupSetter__", native_function "__lookupSetter__");
    ("isPrototypeOf", native_function "isPrototypeOf");
    ("propertyIsEnumerable", native_function "propertyIsEnumerable");
    ("toString", native_function "toString");
    ("valueOf", native_function "valueOf");
    ("__proto__", VNative "[object Object]");
    ("toLocaleString", native_function "toLocaleString") ].

(** [categoryTotals[key]]: own properties first, then the prototype. *)
Definition read (categoryTotals : list (string * jsval)) (key : string) : jsval :=
  match lookup key categoryTotals with
  | Some v => v
  | None =>
      match lookup key Object_prototype with
      | Some v => v
      | None => VUndefined
      end
  end.

(** [categoryTotals[key] = v] for a primitive [v]: the inherited
    [__proto__] setter ignores a primitive, every other key becomes (or
    stays) an own property. *)
Definition write (categoryTotals : list (string * jsval)) (key : string) (v : jsval)
  : list (string * jsval) :=
  if (key =? "__proto__")%string then categoryTotals
  else update key v categoryTotals.

Section Routes.
Context {B : Builtins}.

(** [Number(a) || 0] *)
Definition amount_or_zero (n : option Q) : Q :=
  match n with
  | Some q => if Qeqb0 q then 0 else q
  | None => 0
  end.

(** [(c && (Array.isArray(c) ? c[0] : c)) || 'Other'] *)
Definition category_label (c : jsval) : jsval :=
  jsor (jsand c (if isArray c then prop c "0" else c)) (VStr "Other").

(** Whether [dayjs(date)] returns.  A value that carries a truthy
    [$isDayjsObject] is taken for a dayjs object and its [clone] method is
    called, which JSON data never has; every other value is handed to
    [new Date], which converts an object to a primitive. *)
Definition parses (date : jsval) : bool :=
  negb (truthy (jsand date (prop date "$isDayjsObject"))) && convertible date.

(** [dayjs(date)]: the date object it builds is never used, only its
    failure is kept. *)
Definition dayjs (date : jsval) : result jsval :=
  if parses date then Ok date else Throw TypeError.

(** One iteration of the loop of [computeInsights] over the pair
    [(totalThisMonth, categoryTotals)].  Of the logged line only the
    conversions of [t.name], [t.date] and [t.category] to text are kept,
    which can fail. *)
Definition step (st : Q * list (string * jsval)) (t : jsval)
  : result (Q * list (string * jsval)) :=
  let '(totalThisMonth, categoryTotals) := st in
  a <- get t "amount" ;;
  n <- Number a ;;
  let amount := amount_or_zero n in
  d <- get t "date" ;;
  txDate <- dayjs d ;;
  let expenseAmount := Qabs amount in
  nm <- get t "name" ;;
  _ <- interpolate nm ;;
  _ <- interpolate d ;;
  c <- get t "category" ;;
  _ <- interpolate c ;;
  if Qltb 0 expenseAmount then
    cat <- ToPropertyKey (category_label c) ;;
    Ok (totalThisMonth + expenseAmount,
        write categoryTotals cat
              (jsadd (jsor (read categoryTotals cat) (VNum 0)) (VNum expenseAmount)))
  else Ok st.

Fixpoint loop (st : Q * list (string * jsval)) (transactions : list jsval)
  : result (Q * list (string * jsval)) :=
  match transactions with
  | [] => Ok st
  | t :: rest => st' <- step st t ;; loop st' rest
  end.

(** The comparator [(a, b) => b[1] - a[1]]; [None] is NaN. *)
Definition compareFn (a b : string * jsval) : option Q := jssub (snd b) (snd a).

(** [Array.prototype.sort] moves [a] behind [b] when the comparator is
    positive; a NaN counts as zero. *)
Definition sorts_after (a b : string * jsval) : bool :=
  match compareFn a b with
  | Some d => Qltb 0 d
  | None => false
  end.

Fixpoint insert (x : string * jsval) (l : list (string * jsval)) : list (string * jsval) :=
  match l with
  | [] => [x]
  | y :: l' => if sorts_after x y then y :: insert x l' else x :: l
  end.

(** The sort is stable; it is modelled as a stable insertion sort, which
    any stable sort agrees with when the comparator is consistent, as it
    is when every total is a number.  When a total is a text (under a
    label inherited from [Object.prototype]) the comparator yields NaN
    and the order is the engine's own. *)
Fixpoint sort (l : list (string * jsval)) : list (string * jsval) :=
  match l with
  | [] => []
  | x :: l' => insert x (sort l')
  end.

Definition ranking (categoryTotals : list (string * jsval)) : list CategoryTotal :=
  map (fun e => {| name := fst e; total := snd e |})
      (firstn 5 (sort (own_entries categoryTotals))).

Definition computeInsights (transactions : list jsval) : result Insights :=
  st <- loop (0, []) transactions ;;
  Ok {| totalThisMonth := fst st; topCategories := ranking (snd st) |}.

(** [computeInsights] on any value, as the function is exported: the
    first line reads [transactions.length], then [for ... of] asks the
    value for its elements.  An array yields its elements and a string its
    characters; nothing else that a JSON body can hold is iterable. *)
Definition computeInsights_of (transactions : jsval) : result Insights :=
  _ <- get transactions "length" ;;
  match transactions with
  | VArr ts => computeInsights ts
  | VStr s => computeInsights (string_chars s)
  | _ => Throw TypeError
  end.

(** The record mapping of [/api/insights]. *)
Definition normalized (t : jsval) : result jsval :=
  date <- get t "date" <||> get t "datetime" <||> get t "authorized_date" ;;
  amount <- get t "amount" ;;
  category <- get t "category"
              <||> (p <- get t "personal_finance_category" ;; Ok (optget p "primary"))
              <||> Ok (VStr "Other") ;;
  name <- get t "name" <||> get t "merchant_name" <||> Ok (VStr "") ;;
  Ok (VObj [("date", date); ("amount", amount); ("category", category); ("name", name)]).

(** [app.post('/api/insights', ...)] *)
Definition insights_route (srv : server) (body : jsval) : server * response :=
  let outcome :=
    transactions <- get (jsor body (VObj [])) "transactions" ;;
    match transactions with
    | VArr ts =>
        rows <- mapM normalized ts ;;
        insights <- computeInsights rows ;;
        Ok (InsightsJson insights)
    | _ => Ok (ErrorJson 400 "transactions[] required")
    end in
  (srv, match outcome with
        | Ok r => r
        | Throw _ => ErrorJson 500 "Failed to compute insights"
        end).

(** [app.use(express.json({ limit: '2mb' }))] stands in front of the
    routes: a request whose body is longer than the limit is refused with
    status 413 and the route does not run.  [size] is the length of the
    body in bytes. *)
Definition body_limit : N := 2097152.

Inductive delivery : Type :=
| Refused (status : nat)
| Answered (r : response).

Definition post_insights (size : N) (srv : server) (body : jsval) : server * delivery :=
  if (size <=? body_limit)%N
  then (fst (insights_route srv body), Answered (snd (insights_route srv body)))
  else (srv, Refused 413).

(** [record[Object.keys(record)[0]]] *)
Definition first_column (record : jsval) : result jsval :=
  ks <- Object_keys record ;;
  get record (match ks with k :: _ => k | [] => "undefined" end).

(** The record mapping of [/api/upload-csv]. *)
Definition csv_record (record : jsval) : result jsval :=
  date <- get record "date" <||> get record "Date"
          <||> get record "TRANSACTION_DATE" <||> first_column record ;;
  name <- get record "description" <||> get record "Description"
          <||> get record "NAME" <||> get record "Merchant" <||> Ok (VStr "") ;;
  raw <- get record "amount" <||> get record "Amount"
         <||> get record "DEBIT" <||> get record "CREDIT" <||> Ok (VStr "0") ;;
  text <- toString raw ;;
  let amount := jsor (of_number (parseFloat (replace_non_numeric text))) (VNum 0) in
  category <- get record "category" <||> get record "Category" <||> Ok (VStr "Other") ;;
  Ok (VObj [("date", date); ("name", name); ("amount", amount); ("category", category)]).

(** [app.post('/api/upload-csv', ...)]: [file] is the uploaded file as
    the rows the CSV parser yields for it, if a file was sent. *)
Definition upload_csv_route (srv : server) (file : option (list jsval))
  : server * response :=
  match file with
  | None => (srv, ErrorJson 400 "file is required")
  | Some rows =>
      (srv, match mapM csv_record rows with
            | Ok records => TransactionsJson records
            | Throw _ => ErrorJson 500 "Failed to parse CSV"
            end)
  end.
End Routes.

End Backend.

(* ================================================================== *)
(** * The frontend *)

Module Frontend.
Import JS.

Section Mapping.
Context {B : Builtins}.

(** The mapping [refreshData] applies to each bank record before the
    batch is posted to [/api/insights]. *)
Definition refreshData_record (t : jsval) : result jsval :=
  date <- get t "date" ;;
  name <- get t "name" <||> get t "merchant_name" <||> Ok (VStr "Unknown") ;;
  amount <- get t "amount" ;;
  category <- (p <- get t "personal_finance_category" ;; Ok (optget p "primary"))
              <||> (c <- get t "category" ;; Ok (if isArray c then prop c "0" else c))
              <||> Ok (VStr "Other") ;;
  Ok (VObj [("date", date); ("name", name); ("amount", amount); ("category", category)]).
End Mapping.

End Frontend.

(* ================================================================== *)
(** * A reference instance of the conversions *)

Module Reference.
Import JS.

Definition digit_char (d : N) : ascii := ascii_of_N (48 + d).

Fixpoint digits_of (fuel : nat) (n : N) (acc : string) : string :=
  match fuel with
  | O => acc
  | S fuel' =>
      let acc' := String (digit_char (n mod 10)) acc in
      if (n <? 10)%N then acc' else digits_of fuel' (n / 10) acc'
  end.

Definition integer_text (n : N) : string := digits_of (S (N.to_nat (N.log2 n))) n "".

Fixpoint fraction_text (fuel : nat) (r d : N) : string :=
  match fuel with
  | O => ""
  | S fuel' =>
      if (r =? 0)%N then ""
      else String (digit_char (10 * r / d)) (fraction_text fuel' ((10 * r) mod d) d)
  end.

(** Decimal text of a rational: exact for the integers and finite decimals
    that print without an exponent. *)
Definition number_text (q : Q) : string :=
  let d := Npos (Qden q) in
  let a := Z.to_N (Z.abs (Qnum q)) in
  let r := (a mod d)%N in
  (if (Qnum q <? 0)%Z then "-" else "")
  ++ integer_text (a / d)
  ++ (if (r =? 0)%N then "" else "." ++ fraction_text 20 r d).

Fixpoint pow10 (n : nat) : positive :=
  match n with O => 1%positive | S n' => (10 * pow10 n')%positive end.

(** A digit of a hexadecimal, octal or binary literal. *)
Definition radix_digit (radix : N) (c : ascii) : option N :=
  let n := N_of_ascii c in
  let d := if ((48 <=? n) && (n <=? 57))%N then Some (n - 48)%N
           else if ((97 <=? n) && (n <=? 102))%N then Some (n - 87)%N
           else if ((65 <=? n) && (n <=? 70))%N then Some (n - 55)%N
           else None in
  match d with
  | Some v => if (v <? radix)%N then Some v else None
  | None => None
  end.

Fixpoint radix_digits (radix : N) (s : string) (acc : N) (len : nat) : N * nat * string :=
  match s with
  | EmptyString => (acc, len, EmptyString)
  | String c s' =>
      match radix_digit radix c with
      | Some d => radix_digits radix s' (radix * acc + d)%N (S len)
      | None => (acc, len, s)
      end
  end.

(** The digits after [0x], [0o] or [0b]: at least one, then white space
    only. *)
Definition radix_literal (radix : N) (s : string) : option Q :=
  let '(v, len, rest) := radix_digits radix s 0 0 in
  match len, skip_spaces rest with
  | S _, EmptyString => Some (inject_Z (Z.of_N v))
  | _, _ => None
  end.

Definition radix_of (c : ascii) : option N :=
  if ((c =? "x") || (c =? "X"))%char then Some 16%N
  else if ((c =? "o") || (c =? "O"))%char then Some 8%N
  else if ((c =? "b") || (c =? "B"))%char then Some 2%N
  else None.

Definition exponent (s : string) : option (bool * N) :=
  let '(neg, r) := split_sign s in
  let '(ev, elen, rest) := take_digits r 0 0 in
  match elen, skip_spaces rest with
  | S _, EmptyString => Some (neg, ev)
  | _, _ => None
  end.

Definition decimal_literal (s0 : string) : option Q :=
  let '(neg, s1) := split_sign s0 in
  let '(ip, ilen, s2) := take_digits s1 0 0 in
  let '(fp, flen, s3) :=
    match after_point s2 with
    | Some r => take_digits r 0 0
    | None => (0%N, O, s2)
    end in
  match ilen, flen with
  | O, O => None
  | _, _ =>
      let m := decimal_value neg ip fp flen in
      match s3 with
      | String e r =>
          if ((e =? "e") || (e =? "E"))%char then
            match exponent r with
            | Some (eneg, ev) =>
                let p := inject_Z (Zpos (pow10 (N.to_nat ev))) in
                Some (Qred (if eneg then m / p else m * p))
            | None => None
            end
          else match skip_spaces s3 with EmptyString => Some m | _ => None end
      | EmptyString => Some m
      end
  end.

(** StringToNumber: white space around a decimal literal with an optional
    exponent, or around an unsigned hexadecimal, octal or binary literal;
    the empty string is 0 and every other text is NaN.  The texts
    [Infinity], [+Infinity] and [-Infinity] denote no number of the model
    and are read as NaN as well. *)
Definition number_of_text (s : string) : option Q :=
  match skip_spaces s with
  | EmptyString => Some 0
  | String c0 (String c1 r) as s0 =>
      match (if (c0 =? "0")%char then radix_of c1 else None) with
      | Some radix => radix_literal radix r
      | None => decimal_literal s0
      end
  | s0 => decimal_literal s0
  end.

#[export] Instance builtins : Builtins :=
  {| NumberToString := number_text; StringToNumber := number_of_text |}.

End Reference.

(* ================================================================== *)
(** * The aggregation stage *)

Module Aggregation.
Import JS Backend.

(** ** Arithmetic on exact numbers *)

Lemma Qltb_true (x y : Q) : Qltb x y = true <-> x < y.
Proof.
  unfold Qltb. rewrite negb_true_iff. split; intro H.
  - apply Qnot_le_lt. intro L. apply Qle_bool_iff in L. congruence.
  - destruct (Qle_bool y x) eqn:E; [|reflexivity].
    apply Qle_bool_iff in E. exfalso. exact (Qlt_not_le _ _ H E).
Qed.

Lemma Qltb_false (x y : Q) : Qltb x y = false <-> y <= x.
Proof.
  unfold Qltb. rewrite negb_false_iff. apply Qle_bool_iff.
Qed.

Lemma Qeqb0_true (q : Q) : Qeqb0 q = true <-> q == 0.
Proof. unfold Qeqb0. apply Qeq_bool_iff. Qed.

Lemma Qabs_opp_eq (q : Q) : Qabs (- q) = Qabs q.
Proof. destruct q as [n d]. unfold Qabs, Qopp. simpl. now rewrite Z.abs_opp. Qed.

Lemma Qeqb0_opp (q : Q) : Qeqb0 (- q) = Qeqb0 q.
Proof.
  destruct (Qeqb0 q) eqn:E.
  - apply Qeqb0_true. apply Qeqb0_true in E. rewrite E. reflexivity.
  - destruct (Qeqb0 (- q)) eqn:E'; [|reflexivity].
    apply Qeqb0_true in E'.
    assert (q == 0) as H by (rewrite <- (Qopp_involutive q), E'; reflexivity).
    apply Qeqb0_true in H. congruence.
Qed.

(** The sum of a list of numbers, added left to right as the loop does. *)
Definition sumQ (l : list Q) : Q := fold_left Qplus l 0.

Lemma fold_left_Qplus_shift (l : list Q) (a : Q) :
  fold_left Qplus l a == a + fold_left Qplus l 0.
Proof.
  revert a. induction l as [|x l IH]; intro a; simpl.
  - lra.
  - rewrite (IH (a + x)), (IH (0 + x)). lra.
Qed.

Lemma sumQ_cons (x : Q) (l : list Q) : sumQ (x :: l) == x + sumQ l.
Proof. unfold sumQ. simpl. rewrite fold_left_Qplus_shift. lra. Qed.

Lemma sumQ_app (l1 l2 : list Q) : sumQ (l1 ++ l2) == sumQ l1 + sumQ l2.
Proof.
  induction l1 as [|x l1 IH]; simpl.
  - unfold sumQ at 2. simpl. lra.
  - rewrite !sumQ_cons, IH. lra.
Qed.

Section Engine.
Context {B : Builtins}.

(** What the loop reads from one transaction. *)
Definition expense (t : jsval) : Q :=
  Qabs (amount_or_zero (ToNumber (prop t "amount"))).

Definition label (t : jsval) : string :=
  ToString (category_label (prop t "category")).

Definition included (t : jsval) : bool := Qltb 0 (expense t).

(** The conversions of one iteration cannot throw. *)
Definition safe (t : jsval) : Prop :=
  nullish t = false
  /\ convertible (prop t "amount") = true
  /\ convertible (prop t "date") = true
  /\ convertible (prop t "name") = true
  /\ convertible (prop t "category") = true
  /\ convertible (category_label (prop t "category")) = true
  /\ parses (prop t "date") = true.

(** The loop body on a transaction whose conversions succeed. *)
Definition accumulate (st : Q * list (string * jsval)) (t : jsval)
  : Q * list (string * jsval) :=
  if included t
  then (fst st + expense t,
        write (snd st) (label t)
              (jsadd (jsor (read (snd st) (label t)) (VNum 0)) (VNum (expense t))))
  else st.

Lemma step_safe (st : Q * list (string * jsval)) (t : jsval) :
  safe t -> step st t = Ok (accumulate st t).
Proof.
  intros (Hn & Ha & Hd & Hnm & Hc & Hl & Hp). destruct st as [total cats].
  unfold step, accumulate, included, expense, label, get, Number, ToPropertyKey,
    interpolate, dayjs.
  rewrite Hn. cbn [bind]. rewrite Ha, Hp, Hd, Hnm, Hc. cbn [bind fst snd].
  destruct (Qltb 0 _); [|reflexivity].
  rewrite Hl. reflexivity.
Qed.

Lemma loop_safe (ts : list jsval) (st : Q * list (string * jsval)) :
  Forall safe ts -> loop st ts = Ok (fold_left accumulate ts st).
Proof.
  intro H. revert st. induction H as [|t ts Ht _ IH]; intro st; simpl.
  - reflexivity.
  - rewrite (step_safe st t Ht). simpl. apply IH.
Qed.

Lemma computeInsights_safe (ts : list jsval) :
  Forall safe ts ->
  computeInsights ts =
    Ok {| totalThisMonth := fst (fold_left accumulate ts (0, []));
          topCategories := ranking (snd (fold_left accumulate ts (0, []))) |}.
Proof.
  intro H. unfold computeInsights. rewrite (loop_safe ts _ H). reflexivity.
Qed.

(** ** Well-formed transactions *)

Definition scalar (v : jsval) : bool :=
  match v with VArr _ | VObj _ => false | _ => true end.

(** A category is a scalar or a list of scalars. *)
Definition category_shape (c : jsval) : bool :=
  match c with
  | VArr l => forallb scalar l
  | VObj _ => false
  | _ => true
  end.

(** A transaction record: an object whose date, name and amount are
    scalars and whose category (and primary personal-finance category, if
    any) is a label or a list of labels. *)
Definition well_formed (t : jsval) : Prop :=
  (exists o, t = VObj o)
  /\ scalar (prop t "amount") = true
  /\ scalar (prop t "date") = true
  /\ scalar (prop t "datetime") = true
  /\ scalar (prop t "authorized_date") = true
  /\ scalar (prop t "name") = true
  /\ scalar (prop t "merchant_name") = true
  /\ category_shape (prop t "category") = true
  /\ category_shape (optget (prop t "personal_finance_category") "primary") = true.

Lemma scalar_convertible (v : jsval) : scalar v = true -> convertible v = true.
Proof. destruct v; simpl; congruence. Qed.

Lemma category_shape_convertible (c : jsval) :
  category_shape c = true -> convertible c = true.
Proof.
  destruct c; simpl; try congruence.
  induction elems as [|x l IH]; simpl; [reflexivity|].
  intro H. apply andb_true_iff in H as [Hx Hl].
  now rewrite (scalar_convertible x Hx), (IH Hl).
Qed.

Lemma nth_scalar (l : list jsval) (n : nat) :
  forallb scalar l = true -> scalar (nth n l VUndefined) = true.
Proof.
  revert n. induction l as [|x l IH]; intros [|n] H; simpl in *; try reflexivity;
    apply andb_true_iff in H as [Hx Hl]; auto.
Qed.

Lemma category_label_scalar (c : jsval) :
  category_shape c = true -> scalar (category_label c) = true.
Proof.
  intro H. unfold category_label, jsor, jsand.
  destruct c; simpl in *; try reflexivity; try discriminate;
    repeat match goal with |- context [if ?b then _ else _] => destruct b end;
    simpl; try reflexivity.
  apply nth_scalar with (n := 0%nat) in H. exact H.
Qed.

Lemma scalar_parses (d : jsval) : scalar d = true -> parses d = true.
Proof.
  intro H. unfold parses. rewrite (scalar_convertible d H), andb_true_r.
  apply negb_true_iff. unfold jsand.
  destruct (truthy d) eqn:E; [|exact E].
  destruct d; try discriminate; reflexivity.
Qed.

Lemma well_formed_safe (t : jsval) : well_formed t -> safe t.
Proof.
  intros ([o ->] & Ha & Hd & _ & _ & Hn & _ & Hc & _). repeat split.
  - now apply scalar_convertible.
  - now apply scalar_convertible.
  - now apply scalar_convertible.
  - now apply category_shape_convertible.
  - now apply scalar_convertible, category_label_scalar.
  - now apply scalar_parses.
Qed.

Lemma well_formed_all_safe (ts : list jsval) : Forall well_formed ts -> Forall safe ts.
Proof. intro H. eapply Forall_impl; [|exact H]. apply well_formed_safe. Qed.
(** ** The accumulator on batches without inherited labels *)

Definition cell_value (v : jsval) : Q :=
  match v with VNum q => q | _ => 0 end.

Definition positive_cell (e : string * jsval) : Prop :=
  exists q, snd e = VNum q /\ 0 < q.

Definition sum_cells (o : list (string * jsval)) : Q :=
  fold_right (fun e acc => cell_value (snd e) + acc) 0 o.

(** [k] names a member of [Object.prototype]. *)
Definition inherited (k : string) : bool :=
  match lookup k Object_prototype with Some _ => true | None => false end.

(** No transaction that counts carries a label that [Object.prototype]
    also defines. *)
Definition clean (ts : list jsval) : Prop :=
  Forall (fun t => included t = true -> inherited (label t) = false) ts.

Definition add_new (seen : list string) (k : string) : list string :=
  if existsb (String.eqb k) seen then seen else seen ++ [k].

(** The labels of the transactions that count, each at its first
    occurrence. *)
Definition first_seen (ts : list jsval) : list string :=
  fold_left add_new (map label (filter included ts)) [].

Lemma lookup_existsb {V} (k : string) (o : list (string * V)) :
  existsb (String.eqb k) (map fst o) = match lookup k o with Some _ => true | None => false end.
Proof.
  induction o as [|[k' v] o IH]; simpl; [reflexivity|].
  destruct (k =? k')%string; simpl; [reflexivity|exact IH].
Qed.

Lemma update_keys {V} (k : string) (v : V) (o : list (string * V)) :
  map fst (update k v o) = add_new (map fst o) k.
Proof.
  unfold add_new. induction o as [|[k' v'] o IH]; simpl; [reflexivity|].
  destruct (k =? k')%string eqn:E; simpl.
  - apply String.eqb_eq in E. now subst.
  - rewrite IH. destruct (existsb _ _); reflexivity.
Qed.

Lemma update_Forall {V} (P : string * V -> Prop) (k : string) (v : V) (o : list (string * V)) :
  Forall P o -> P (k, v) -> Forall P (update k v o).
Proof.
  intros Ho Hk. induction Ho as [|[k' v'] o Hx Ho IH]; simpl.
  - constructor; [exact Hk|constructor].
  - destruct (k =? k')%string; constructor; auto.
Qed.

Lemma lookup_Forall {V} (P : string * V -> Prop) (k : string) (v : V) (o : list (string * V)) :
  Forall P o -> lookup k o = Some v -> P (k, v).
Proof.
  intros Ho. induction Ho as [|[k' v'] o Hx Ho IH]; simpl; [discriminate|].
  destruct (k =? k')%string eqn:E.
  - apply String.eqb_eq in E. intros [= <-]. now subst.
  - exact IH.
Qed.

Lemma sum_cells_update_some (k : string) (q e : Q) (o : list (string * jsval)) :
  lookup k o = Some (VNum q) ->
  sum_cells (update k (VNum (q + e)) o) == sum_cells o + e.
Proof.
  induction o as [|[k' v'] o IH]; simpl; [discriminate|].
  destruct (k =? k')%string.
  - intros [= ->]. simpl. lra.
  - intro H. simpl. rewrite (IH H). lra.
Qed.

Lemma sum_cells_update_none (k : string) (v : jsval) (o : list (string * jsval)) :
  lookup k o = None ->
  sum_cells (update k v o) == sum_cells o + cell_value v.
Proof.
  induction o as [|[k' v'] o IH]; simpl.
  - intros _. lra.
  - destruct (k =? k')%string; [discriminate|].
    intro H. simpl. rewrite (IH H). lra.
Qed.

Lemma jsadd_numbers (x y : Q) : jsadd (VNum x) (VNum y) = VNum (x + y).
Proof. reflexivity. Qed.

Lemma inherited_proto : inherited "__proto__" = true.
Proof. reflexivity. Qed.

Lemma included_positive (t : jsval) : included t = true -> 0 < expense t.
Proof. apply Qltb_true. Qed.

Lemma excluded_zero (t : jsval) : included t = false -> expense t == 0.
Proof.
  intro H. apply Qltb_false in H.
  assert (0 <= expense t) by apply Qabs_nonneg. lra.
Qed.

(** What the loop maintains on such batches: every cell is a positive
    number, the cells add up to the running total, and the properties were
    created in the order the labels were first seen. *)
Definition consistent (st : Q * list (string * jsval)) (seen : list string) : Prop :=
  Forall positive_cell (snd st)
  /\ sum_cells (snd st) == fst st
  /\ map fst (snd st) = seen.

Lemma accumulate_consistent (st : Q * list (string * jsval)) (seen : list string) (t : jsval) :
  consistent st seen ->
  (included t = true -> inherited (label t) = false) ->
  consistent (accumulate st t) (if included t then add_new seen (label t) else seen).
Proof.
  intros (Hpos & Hsum & Hkeys) Hclean. unfold accumulate.
  destruct (included t) eqn:Hin; [|now repeat split].
  specialize (Hclean eq_refl). pose proof (included_positive t Hin) as He.
  assert ((label t =? "__proto__")%string = false) as Hnp.
  { destruct (label t =? "__proto__")%string eqn:E; [|reflexivity].
    apply String.eqb_eq in E. rewrite E in Hclean. discriminate. }
  unfold write, read. rewrite Hnp. unfold inherited in Hclean.
  destruct st as [total cats]. cbn [fst snd] in *.
  destruct (lookup (label t) cats) as [v|] eqn:Hl.
  - pose proof (lookup_Forall _ _ _ _ Hpos Hl) as (q & Hv & Hq).
    cbn [snd] in Hv. subst v.
    assert (truthy (VNum q) = true) as Ht.
    { simpl. destruct (Qeqb0 q) eqn:E; [|reflexivity].
      apply Qeqb0_true in E. lra. }
    unfold jsor. rewrite Ht, jsadd_numbers.
    repeat split; cbn [fst snd].
    + apply update_Forall; [exact Hpos|]. exists (q + expense t). split; [reflexivity|lra].
    + rewrite (sum_cells_update_some _ _ _ _ Hl), Hsum. reflexivity.
    + rewrite update_keys, Hkeys. reflexivity.
  - destruct (lookup (label t) Object_prototype); [discriminate|].
    unfold jsor. cbn [truthy Qeqb0]. change (Qeq_bool 0 0) with true.
    cbn [negb]. rewrite jsadd_numbers.
    repeat split; cbn [fst snd].
    + apply update_Forall; [exact Hpos|]. exists (0 + expense t). split; [reflexivity|lra].
    + rewrite (sum_cells_update_none _ _ _ Hl), Hsum. cbn [cell_value]. lra.
    + rewrite update_keys, Hkeys. reflexivity.
Qed.

Lemma fold_accumulate_consistent (ts : list jsval) (st : Q * list (string * jsval)) (seen : list string) :
  consistent st seen -> clean ts ->
  consistent (fold_left accumulate ts st)
             (fold_left add_new (map label (filter included ts)) seen).
Proof.
  intros Hst Hc. revert st seen Hst.
  induction Hc as [|t ts Ht _ IH]; intros st seen Hst; simpl; [exact Hst|].
  pose proof (accumulate_consistent st seen t Hst Ht) as H.
  destruct (included t); simpl; apply IH; exact H.
Qed.

Lemma run_consistent (ts : list jsval) :
  clean ts -> consistent (fold_left accumulate ts (0, [])) (first_seen ts).
Proof.
  intro Hc. unfold first_seen. apply fold_accumulate_consistent; [|exact Hc].
  split; [constructor|split; reflexivity].
Qed.

(** ** What the loop depends on *)

(** [Math.abs(Number(a) || 0)] *)
Definition magnitude_of (a : jsval) : result Q :=
  n <- Number a ;; Ok (Qabs (amount_or_zero n)).

(** Two records the loop cannot tell apart: it adds up the amount under
    the category; of the date and the name it only matters whether
    [dayjs] and the conversions to text return. *)
Definition agree (t t' : jsval) : Prop :=
  nullish t = nullish t'
  /\ magnitude_of (prop t "amount") = magnitude_of (prop t' "amount")
  /\ prop t "category" = prop t' "category"
  /\ convertible (prop t "date") = convertible (prop t' "date")
  /\ convertible (prop t "name") = convertible (prop t' "name")
  /\ parses (prop t "date") = parses (prop t' "date").

Lemma step_agree (st : Q * list (string * jsval)) (t t' : jsval) :
  agree t t' -> step st t = step st t'.
Proof.
  intros (Hn & Ha & Hc & Hd & Hnm & Hp). destruct st as [total cats].
  unfold step, get. rewrite <- Hn.
  destruct (nullish t); [reflexivity|]. cbn [bind].
  unfold magnitude_of in Ha.
  destruct (Number (prop t "amount")) as [n|e], (Number (prop t' "amount")) as [n'|e'];
    cbn [bind] in *; try discriminate; [|congruence].
  injection Ha as Ha. unfold dayjs, interpolate. rewrite <- Hp.
  destruct (parses (prop t "date")); [|reflexivity]. cbn [bind].
  rewrite <- Hnm. destruct (convertible (prop t "name")); [|reflexivity]. cbn [bind].
  rewrite <- Hd. destruct (convertible (prop t "date")); [|reflexivity]. cbn [bind].
  rewrite <- Hc, Ha. reflexivity.
Qed.

Lemma loop_agree (ts ts' : list jsval) (st : Q * list (string * jsval)) :
  Forall2 agree ts ts' -> loop st ts = loop st ts'.
Proof.
  intro H. revert st. induction H as [|t t' ts ts' Ht _ IH]; intro st; simpl.
  - reflexivity.
  - rewrite (step_agree st t t' Ht).
    destruct (step st t') as [st'|e]; simpl; [apply IH|reflexivity].
Qed.

Lemma computeInsights_agree (ts ts' : list jsval) :
  Forall2 agree ts ts' -> computeInsights ts = computeInsights ts'.
Proof. intro H. unfold computeInsights. now rewrite (loop_agree ts ts' _ H). Qed.

(** ** The running total *)

Lemma fold_accumulate_total (ts : list jsval) (st : Q * list (string * jsval)) :
  fst (fold_left accumulate ts st)
  = fold_left Qplus (map expense (filter included ts)) (fst st).
Proof.
  revert st. induction ts as [|t ts IH]; intro st; simpl; [reflexivity|].
  rewrite IH. unfold accumulate. destruct (included t); reflexivity.
Qed.

Lemma fold_accumulate_filter (ts : list jsval) (st : Q * list (string * jsval)) :
  fold_left accumulate (filter included ts) st = fold_left accumulate ts st.
Proof.
  revert st. induction ts as [|t ts IH]; intro st; simpl; [reflexivity|].
  destruct (included t) eqn:E; simpl; rewrite IH; [reflexivity|].
  unfold accumulate. now rewrite E.
Qed.

Lemma sumQ_filter_included (ts : list jsval) :
  sumQ (map expense (filter included ts)) == sumQ (map expense ts).
Proof.
  induction ts as [|t ts IH]; simpl; [reflexivity|].
  destruct (included t) eqn:E; simpl; rewrite !sumQ_cons, IH; [reflexivity|].
  rewrite (excluded_zero t E). lra.
Qed.

Lemma filter_included_safe (ts : list jsval) :
  Forall safe ts -> Forall safe (filter included ts).
Proof.
  intro H. induction H as [|t ts Ht _ IH]; simpl; [constructor|].
  destruct (included t); [constructor|]; assumption.
Qed.

(** ** Flipping signs *)

Definition opposite (v : jsval) : jsval :=
  match v with VNum q => VNum (- q) | _ => v end.

(** The record with its numeric [amount] negated. *)
Definition negate_amount (t : jsval) : jsval :=
  match t with
  | VObj o =>
      VObj (map (fun e => if (fst e =? "amount")%string then (fst e, opposite (snd e)) else e) o)
  | _ => t
  end.

Fixpoint flip_signs (flags : list bool) (ts : list jsval) : list jsval :=
  match flags, ts with
  | b :: flags', t :: ts' => (if b then negate_amount t else t) :: flip_signs flags' ts'
  | _, _ => ts
  end.

Lemma magnitude_opposite (a : jsval) : magnitude_of (opposite a) = magnitude_of a.
Proof.
  destruct a; try reflexivity. unfold magnitude_of, Number. simpl.
  rewrite Qeqb0_opp. destruct (Qeqb0 q); [reflexivity|]. now rewrite Qabs_opp_eq.
Qed.

Lemma lookup_negated (k : string) (o : list (string * jsval)) :
  lookup k (map (fun e => if (fst e =? "amount")%string then (fst e, opposite (snd e)) else e) o)
  = if (k =? "amount")%string then option_map opposite (lookup k o) else lookup k o.
Proof.
  induction o as [|[k' v] o IH]; simpl.
  - now destruct (k =? "amount")%string.
  - destruct (k' =? "amount")%string eqn:E'; simpl;
      destruct (k =? k')%string eqn:E; rewrite ?IH;
      try (apply String.eqb_eq in E; subst k; rewrite E'); try reflexivity.
Qed.

Lemma negate_agree (t : jsval) : agree (negate_amount t) t.
Proof.
  destruct t; try (repeat split; reflexivity).
  unfold agree, prop, negate_amount. rewrite !lookup_negated. simpl.
  repeat split.
  destruct (lookup "amount" props) as [v|]; simpl; [|reflexivity].
  apply magnitude_opposite.
Qed.

Lemma agree_refl (t : jsval) : agree t t.
Proof. repeat split. Qed.

Lemma flip_signs_agree (flags : list bool) (ts : list jsval) :
  Forall2 agree (flip_signs flags ts) ts.
Proof.
  revert flags. induction ts as [|t ts IH]; intros [|b flags]; simpl;
    try constructor; try apply agree_refl.
  - clear. induction ts; constructor; [apply agree_refl|assumption].
  - destruct b; [apply negate_agree|apply agree_refl].
  - apply IH.
Qed.

(** ** The ranking *)

Definition numeric_cell (e : string * jsval) : Prop := exists q, snd e = VNum q.

(** Entries by non-increasing total. *)
Definition descending (l : list (string * jsval)) : Prop :=
  StronglySorted (fun a b => cell_value (snd b) <= cell_value (snd a)) l.

(** The entries whose total is [v]. *)
Definition tied (v : Q) (e : string * jsval) : bool :=
  Qeq_bool (cell_value (snd e)) v.

Lemma positive_numeric (l : list (string * jsval)) :
  Forall positive_cell l -> Forall numeric_cell l.
Proof.
  intro H. eapply Forall_impl; [|exact H].
  intros e (q & Hq & _). now exists q.
Qed.

Lemma sorts_after_numeric (a b : string * jsval) :
  numeric_cell a -> numeric_cell b ->
  sorts_after a b = Qltb (cell_value (snd a)) (cell_value (snd b)).
Proof.
  intros [qa Ha] [qb Hb]. unfold sorts_after, compareFn, jssub.
  rewrite Ha, Hb. simpl.
  destruct (Qltb qa qb) eqn:E.
  - apply Qltb_true. apply Qltb_true in E. lra.
  - apply Qltb_false. apply Qltb_false in E. lra.
Qed.

Lemma insert_perm (x : string * jsval) (l : list (string * jsval)) :
  Permutation (insert x l) (x :: l).
Proof.
  induction l as [|y l IH]; simpl; [reflexivity|].
  destruct (sorts_after x y); [|reflexivity].
  rewrite IH. apply perm_swap.
Qed.

Lemma sort_perm (l : list (string * jsval)) : Permutation (sort l) l.
Proof.
  induction l as [|x l IH]; simpl; [reflexivity|].
  rewrite insert_perm. now constructor.
Qed.

Lemma insert_descending (x : string * jsval) (l : list (string * jsval)) :
  numeric_cell x -> Forall numeric_cell l -> descending l -> descending (insert x l).
Proof.
  intros Hx Hl Hs. induction l as [|y l IH]; simpl.
  - repeat constructor.
  - inversion Hl as [|? ? Hy Hl']; subst.
    apply StronglySorted_inv in Hs as [Hs Hall].
    rewrite (sorts_after_numeric x y Hx Hy).
    destruct (Qltb _ _) eqn:E.
    + apply Qltb_true in E. constructor; [now apply IH|].
      apply (Permutation_Forall (Permutation_sym (insert_perm x l))).
      constructor; [lra|exact Hall].
    + apply Qltb_false in E. constructor.
      * constructor; assumption.
      * constructor; [exact E|].
        eapply Forall_impl; [|exact Hall]. cbn beta. intros z Hz. lra.
Qed.

Lemma sort_descending (l : list (string * jsval)) :
  Forall numeric_cell l -> descending (sort l).
Proof.
  intro H. induction H as [|x l Hx Hl IH]; simpl; [constructor|].
  apply insert_descending; [exact Hx| |exact IH].
  apply (Permutation_Forall (Permutation_sym (sort_perm l))). exact Hl.
Qed.

Lemma insert_stable (v : Q) (x : string * jsval) (l : list (string * jsval)) :
  numeric_cell x -> Forall numeric_cell l ->
  filter (tied v) (insert x l) = filter (tied v) (x :: l).
Proof.
  intros Hx Hl. induction Hl as [|y l Hy Hl IH]; simpl; [reflexivity|].
  rewrite (sorts_after_numeric x y Hx Hy).
  destruct (Qltb _ _) eqn:E; [|reflexivity].
  apply Qltb_true in E. simpl. rewrite IH. simpl.
  destruct (tied v x) eqn:Tx, (tied v y) eqn:Ty; try reflexivity.
  unfold tied in *. apply Qeq_bool_iff in Tx, Ty. lra.
Qed.

Lemma sort_stable (v : Q) (l : list (string * jsval)) :
  Forall numeric_cell l -> filter (tied v) (sort l) = filter (tied v) l.
Proof.
  intro H. induction H as [|x l Hx Hl IH]; simpl; [reflexivity|].
  rewrite insert_stable; [simpl; now rewrite IH|exact Hx|].
  apply (Permutation_Forall (Permutation_sym (sort_perm l))). exact Hl.
Qed.

Lemma firstn_In {A} (n : nat) (l : list A) (x : A) : In x (firstn n l) -> In x l.
Proof.
  intro H. rewrite <- (firstn_skipn n l). apply in_or_app. now left.
Qed.

Lemma firstn_StronglySorted {A} (R : A -> A -> Prop) (n : nat) (l : list A) :
  StronglySorted R l -> StronglySorted R (firstn n l).
Proof.
  intro H. revert n. induction H as [|x l Hs IH Hall]; intros [|n]; simpl;
    try constructor; [apply IH|].
  rewrite Forall_forall in *. intros y Hy. apply Hall.
  eapply firstn_In. exact Hy.
Qed.

Lemma map_StronglySorted {A C} (f : A -> C) (R : C -> C -> Prop) (l : list A) :
  StronglySorted (fun a b => R (f a) (f b)) l -> StronglySorted R (map f l).
Proof.
  intro H. induction H as [|x l Hs IH Hall]; simpl; constructor; [exact IH|].
  rewrite Forall_forall in *. intros y Hy.
  apply in_map_iff in Hy as (z & <- & Hz). now apply Hall.
Qed.

(** ** The order of [Object.entries] *)

Definition ascending (l : list (string * jsval)) : Prop :=
  StronglySorted (fun a b => (index_of (fst a) <= index_of (fst b))%N) l.

Lemma insert_index_perm (e : string * jsval) (l : list (string * jsval)) :
  Permutation (insert_index e l) (e :: l).
Proof.
  induction l as [|y l IH]; simpl; [reflexivity|].
  destruct (_ <=? _)%N; [|reflexivity].
  rewrite IH. apply perm_swap.
Qed.

Lemma insert_index_ascending (e : string * jsval) (l : list (string * jsval)) :
  ascending l -> ascending (insert_index e l).
Proof.
  intro Hs. induction l as [|y l IH]; simpl.
  - repeat constructor.
  - apply StronglySorted_inv in Hs as [Hs Hall].
    destruct (_ <=? _)%N eqn:E.
    + apply N.leb_le in E. constructor; [now apply IH|].
      apply (Permutation_Forall (Permutation_sym (insert_index_perm e l))).
      constructor; [exact E|exact Hall].
    + apply N.leb_gt in E. constructor.
      * constructor; assumption.
      * constructor; [lia|].
        eapply Forall_impl; [|exact Hall]. cbn beta. intros z Hz. lia.
Qed.

Lemma fold_insert_index (l acc : list (string * jsval)) :
  ascending acc ->
  ascending (fold_left (fun a e => insert_index e a) l acc)
  /\ Permutation (fold_left (fun a e => insert_index e a) l acc) (acc ++ l).
Proof.
  revert acc. induction l as [|e l IH]; intros acc Hacc; simpl.
  - rewrite app_nil_r. now split.
  - destruct (IH (insert_index e acc) (insert_index_ascending e acc Hacc)) as [Hs Hp].
    split; [exact Hs|]. rewrite Hp, insert_index_perm.
    simpl. apply Permutation_middle.
Qed.

Lemma sort_index_ascending (l : list (string * jsval)) : ascending (sort_index l).
Proof. apply fold_insert_index. constructor. Qed.

Lemma sort_index_perm (l : list (string * jsval)) : Permutation (sort_index l) l.
Proof. apply (fold_insert_index l []). constructor. Qed.

Lemma filter_split_perm {A} (f : A -> bool) (l : list A) :
  Permutation (filter f l ++ filter (fun x => negb (f x)) l) l.
Proof.
  induction l as [|x l IH]; simpl; [reflexivity|].
  destruct (f x); simpl.
  - now constructor.
  - rewrite <- Permutation_middle. now constructor.
Qed.

Lemma own_entries_perm (o : list (string * jsval)) : Permutation (own_entries o) o.
Proof.
  unfold own_entries. rewrite sort_index_perm. apply filter_split_perm.
Qed.

Lemma filter_none {A} (f : A -> bool) (l : list A) :
  Forall (fun x => f x = false) l -> filter f l = [].
Proof.
  intro H. induction H as [|x l Hx _ IH]; simpl; [reflexivity|]. now rewrite Hx.
Qed.

Lemma filter_all {A} (f : A -> bool) (l : list A) :
  Forall (fun x => f x = true) l -> filter f l = l.
Proof.
  intro H. induction H as [|x l Hx _ IH]; simpl; [reflexivity|]. now rewrite Hx, IH.
Qed.

(** Without array-index keys, [Object.entries] lists the properties in
    creation order. *)
Lemma own_entries_creation_order (o : list (string * jsval)) :
  Forall (fun k => is_index k = false) (map fst o) -> own_entries o = o.
Proof.
  intro H. apply Forall_map in H. unfold own_entries.
  rewrite filter_none by exact H. simpl.
  apply filter_all. eapply Forall_impl; [|exact H].
  cbn beta. intros e He. now rewrite He.
Qed.

(** ** Dates *)

(** The record with its [date] replaced. *)
Definition with_date (d : string) (t : jsval) : jsval :=
  match t with
  | VObj o => VObj (update "date" (VStr d) o)
  | _ => t
  end.

Lemma lookup_update_same {V} (k : string) (v : V) (o : list (string * V)) :
  lookup k (update k v o) = Some v.
Proof.
  induction o as [|[k0 v0] o IH]; simpl.
  - now rewrite String.eqb_refl.
  - destruct (k =? k0)%string eqn:E; simpl; [now rewrite String.eqb_refl|].
    now rewrite E.
Qed.

Lemma lookup_update_other {V} (k k' : string) (v : V) (o : list (string * V)) :
  (k =? k')%string = false -> lookup k (update k' v o) = lookup k o.
Proof.
  intro H. induction o as [|[k0 v0] o IH]; simpl.
  - now rewrite H.
  - destruct (k' =? k0)%string eqn:E; simpl.
    + apply String.eqb_eq in E. subst k0. now rewrite H.
    + now rewrite IH.
Qed.

Lemma with_date_agree (d : string) (t : jsval) :
  safe t -> agree (with_date d t) t.
Proof.
  intros (_ & _ & Hd & _ & _ & _ & Hp). destruct t; try apply agree_refl.
  unfold agree, with_date. cbn [nullish]. unfold prop in *.
  rewrite (lookup_update_other "amount" "date"), (lookup_update_other "category" "date"),
    (lookup_update_other "name" "date") by reflexivity.
  rewrite lookup_update_same, Hd, Hp, (scalar_parses (VStr d) eq_refl).
  repeat split; reflexivity.
Qed.

Lemma map_with_date_agree (d : jsval -> string) (ts : list jsval) :
  Forall safe ts -> Forall2 agree (map (fun t => with_date (d t) t) ts) ts.
Proof.
  intro H. induction H; simpl; constructor; [now apply with_date_agree|assumption].
Qed.

(** ** Claims about the aggregation *)

(** C8: negating the amount of any of the transactions leaves the whole
    result unchanged, and the empty batch yields a total of 0 and no
    category. *)
Theorem sign_invariance (flags : list bool) (ts : list jsval) :
  computeInsights (flip_signs flags ts) = computeInsights ts
  /\ computeInsights [] = Ok {| totalThisMonth := 0; topCategories := [] |}.
Proof.
  split; [|reflexivity].
  apply computeInsights_agree, flip_signs_agree.
Qed.

(** The entries [Object.entries] yields: the array-index labels in
    ascending numeric order, then the other labels in creation order. *)
Lemma own_entries_shape (o : list (string * jsval)) :
  exists idx : list (string * jsval),
    own_entries o = (idx ++ filter (fun e => negb (is_index (fst e))) o)%list
    /\ ascending idx
    /\ Forall (fun e => is_index (fst e) = true) idx.
Proof.
  exists (sort_index (filter (fun e => is_index (fst e)) o)).
  split; [reflexivity|]. split; [apply sort_index_ascending|].
  apply (Permutation_Forall (Permutation_sym (sort_index_perm _))).
  apply Forall_forall. intros e He. now apply filter_In in He.
Qed.

Lemma map_fst_filter {V} (f : string -> bool) (o : list (string * V)) :
  map fst (filter (fun e => f (fst e)) o) = filter f (map fst o).
Proof.
  induction o as [|[k v] o IH]; simpl; [reflexivity|].
  destruct (f k); simpl; now rewrite IH.
Qed.

(** C3, as amended: the ranking never has more than five entries; on a
    batch none of whose labels is a member name of [Object.prototype] it
    is the first five of all the entries sorted by non-increasing total
    (the whole list is sorted, then cut), where
    entries of equal total keep the order of [Object.entries]: the labels
    that are array indices first, in ascending numeric order, then the
    other labels in the order they were first encountered (so the
    first-encountered order throughout when no label is an array index). *)
Theorem ranking_order (ts : list jsval) :
  (forall ins, computeInsights ts = Ok ins ->
               (List.length (topCategories ins) <= 5)%nat)
  /\
  (Forall well_formed ts -> clean ts ->
  exists total cats sorted (idx : list string),
    loop (0, []) ts = Ok (total, cats)
    /\ computeInsights ts =
         Ok {| totalThisMonth := total;
               topCategories :=
                 map (fun e => {| name := fst e; total := snd e |}) (firstn 5 sorted) |}
    /\ (List.length (firstn 5 sorted) <= 5)%nat
    /\ descending sorted
    /\ descending (firstn 5 sorted)
    /\ Permutation sorted (own_entries cats)
    /\ (forall v, filter (tied v) sorted = filter (tied v) (own_entries cats))
    /\ map fst cats = first_seen ts
    /\ map fst (own_entries cats)
         = (idx ++ filter (fun k => negb (is_index k)) (first_seen ts))%list
    /\ StronglySorted (fun a b => (index_of a <= index_of b)%N) idx
    /\ Forall (fun k => is_index k = true) idx
    /\ (Forall (fun k => is_index k = false) (first_seen ts) ->
         map fst (own_entries cats) = first_seen ts)).
Proof.
  split.
  { intros ins H. unfold computeInsights in H.
    destruct (loop (0, []) ts) as [st|e]; [|discriminate].
    injection H as <-. cbn [topCategories]. unfold ranking.
    rewrite length_map. apply firstn_le_length. }
  intros Hwf Hc. pose proof (well_formed_all_safe ts Hwf) as Hs.
  pose proof (run_consistent ts Hc) as (Hpos & _ & Hkeys).
  destruct (fold_left accumulate ts (0, [])) as [total cats] eqn:Hrun.
  cbn [fst snd] in *.
  destruct (own_entries_shape cats) as (idx & Hshape & Hasc & Hidx).
  assert (Forall numeric_cell (own_entries cats)) as Hnum.
  { apply (Permutation_Forall (Permutation_sym (own_entries_perm cats))).
    now apply positive_numeric. }
  exists total, cats, (sort (own_entries cats)), (map fst idx).
  split; [rewrite (loop_safe ts _ Hs), Hrun; reflexivity|].
  split; [rewrite (computeInsights_safe ts Hs), Hrun; reflexivity|].
  split; [apply firstn_le_length|].
  split; [now apply sort_descending|].
  split; [now apply firstn_StronglySorted, sort_descending|].
  split; [apply sort_perm|].
  split; [intro v; now apply sort_stable|].
  split; [exact Hkeys|].
  split; [rewrite Hshape, map_app, map_fst_filter with (f := fun k => negb (is_index k)), Hkeys; reflexivity|].
  split; [apply map_StronglySorted; exact Hasc|].
  split; [apply Forall_map; exact Hidx|].
  intro Hno. rewrite <- Hkeys in Hno.
  now rewrite (own_entries_creation_order cats Hno).
Qed.

Lemma sum_cells_perm (l l' : list (string * jsval)) :
  Permutation l l' -> sum_cells l == sum_cells l'.
Proof.
  intro H. induction H; simpl; lra.
Qed.

Lemma sum_cells_firstn (n : nat) (l : list (string * jsval)) :
  Forall positive_cell l -> sum_cells (firstn n l) <= sum_cells l.
Proof.
  intro H. revert n. induction H as [|e l (q & Hq & Hpos) _ IH]; intros [|n]; simpl;
    try lra.
  - rewrite Hq. cbn [cell_value]. specialize (IH O). cbn [firstn sum_cells fold_right] in IH.
    fold (sum_cells l) in *. lra.
  - specialize (IH n). fold (sum_cells (firstn n l)). fold (sum_cells l). lra.
Qed.

(** The invariant the specification expects of the category totals, on
    the batches where the accumulator works as intended: the totals are
    positive numbers that add up to [totalThisMonth], so the ranking adds
    up to no more, and to as much when there are at most five categories. *)
Lemma category_totals_add_up (ts : list jsval) :
  Forall well_formed ts -> clean ts ->
  exists total cats,
    loop (0, []) ts = Ok (total, cats)
    /\ Forall positive_cell cats
    /\ sum_cells cats == total
    /\ sum_cells (firstn 5 (sort (own_entries cats))) <= total
    /\ ((List.length cats <= 5)%nat ->
        sum_cells (firstn 5 (sort (own_entries cats))) == total).
Proof.
  intros Hwf Hc. pose proof (well_formed_all_safe ts Hwf) as Hs.
  pose proof (run_consistent ts Hc) as (Hpos & Hsum & _).
  destruct (fold_left accumulate ts (0, [])) as [total cats] eqn:Hrun.
  cbn [fst snd] in *. exists total, cats.
  assert (Permutation (sort (own_entries cats)) cats) as Hp
    by (rewrite sort_perm; apply own_entries_perm).
  split; [rewrite (loop_safe ts _ Hs), Hrun; reflexivity|].
  split; [exact Hpos|]. split; [exact Hsum|]. split.
  - rewrite <- Hsum, <- (sum_cells_perm _ _ Hp). apply sum_cells_firstn.
    apply (Permutation_Forall (Permutation_sym Hp)). exact Hpos.
  - intro Hlen. rewrite firstn_all2.
    + now rewrite (sum_cells_perm _ _ Hp).
    + now rewrite (Permutation_length Hp).
Qed.

End Engine.

(** ** Concrete batches *)

Definition transaction (date : string) (amount : Q) (category name : string) : jsval :=
  VObj [("date", VStr date); ("amount", VNum amount);
        ("category", VStr category); ("name", VStr name)].

(** The end-to-end scenario of the specification. *)
Definition scenario : list jsval :=
  [ transaction "2024-01-05" (-45) "FOOD_AND_DRINK" "Cafe";
    transaction "2024-01-06" (-20) "FOOD_AND_DRINK" "Diner";
    transaction "2024-01-07" (-100) "TRAVEL" "Airline" ].

Lemma transaction_well_formed (d : string) (a : Q) (c n : string) :
  well_formed (transaction d a c n).
Proof. split; [now eexists|]. now repeat split. Qed.

Lemma scenario_well_formed : Forall well_formed scenario.
Proof. repeat constructor; apply transaction_well_formed. Qed.

Example scenario_insights :
  computeInsights (B := Reference.builtins) scenario
  = Ok {| totalThisMonth := 165;
          topCategories := [ {| name := "TRAVEL"; total := VNum 100 |};
                             {| name := "FOOD_AND_DRINK"; total := VNum 65 |} ] |}.
Proof. reflexivity. Qed.

(** Two categories of equal total, the second one labelled by an array
    index. *)
Definition tied_batch : list jsval :=
  [ transaction "2024-01-05" 5 "b" "first"; transaction "2024-01-06" 5 "1" "second" ].

(** C3 fails as stated: the two categories are tied, the label first
    encountered is ["b"], and the ranking lists ["1"] before it. *)
Lemma ranking_ties_counterexample :
  computeInsights (B := Reference.builtins) tied_batch
  = Ok {| totalThisMonth := 10;
          topCategories := [ {| name := "1"; total := VNum 5 |};
                             {| name := "b"; total := VNum 5 |} ] |}
  /\ first_seen (B := Reference.builtins) tied_batch = ["b"; "1"].
Proof. split; reflexivity. Qed.

Lemma ranking_order_witness :
  Forall well_formed tied_batch
  /\ clean (B := Reference.builtins) tied_batch
  /\ exists total cats,
       loop (B := Reference.builtins) (0, []) tied_batch = Ok (total, cats)
       /\ map fst cats = ["b"; "1"].
Proof.
  assert (Forall well_formed tied_batch) as Hwf
    by (repeat constructor; apply transaction_well_formed).
  assert (clean (B := Reference.builtins) tied_batch) as Hc
    by (repeat constructor; intros _; reflexivity).
  split; [exact Hwf|]. split; [exact Hc|].
  destruct (proj2 (ranking_order (B := Reference.builtins) tied_batch) Hwf Hc)
    as (total & cats & sorted & idx & H1 & _ & _ & _ & _ & _ & _ & H7 & _).
  exists total, cats. split; [exact H1|exact H7].
Defined.

(** C1 on the code: a transaction of magnitude 7 labelled ["__proto__"]
    is counted in [totalThisMonth] and in no category total, where the
    same transaction under an ordinary label is counted in both and one
    of magnitude 0 in neither.  The accumulator is a plain object, and the
    assignment to its [__proto__] member is swallowed by the inherited
    setter. *)
Theorem proto_label_uncounted :
  included (B := Reference.builtins) (transaction "2024-01-05" 7 "__proto__" "shop") = true
  /\ loop (B := Reference.builtins) (0, []) [transaction "2024-01-05" 7 "__proto__" "shop"]
     = Ok (7, [])
  /\ computeInsights (B := Reference.builtins) [transaction "2024-01-05" 7 "__proto__" "shop"]
     = Ok {| totalThisMonth := 7; topCategories := [] |}
  /\ loop (B := Reference.builtins) (0, []) [transaction "2024-01-05" 7 "TRAVEL" "shop"]
     = Ok (7, [("TRAVEL", VNum 7)])
  /\ loop (B := Reference.builtins) (0, []) [transaction "2024-01-05" 0 "TRAVEL" "shop"]
     = Ok (0, []).
Proof. repeat split. Qed.

(** C9 on the code: a label that [Object.prototype] also defines breaks the
    category totals.  Under ["constructor"] the total is the text of the
    inherited function followed by the amount, not a number; under
    ["__proto__"] nothing is recorded, and [totalThisMonth] is 7 while the
    category totals are empty. *)
Theorem inherited_label_totals :
  computeInsights (B := Reference.builtins) [transaction "2024-01-05" 5 "constructor" "shop"]
  = Ok {| totalThisMonth := 5;
          topCategories :=
            [ {| name := "constructor";
                 total := VStr "function Object() { [native code] }5" |} ] |}
  /\ computeInsights (B := Reference.builtins) [transaction "2024-01-05" 7 "__proto__" "shop"]
     = Ok {| totalThisMonth := 7; topCategories := [] |}.
Proof. split; reflexivity. Qed.

End Aggregation.

(* ================================================================== *)
(** * The normalisation stage *)

Module Normalization.
Import JS Backend.

Lemma get_ok (t : jsval) (k : string) : nullish t = false -> get t k = Ok (prop t k).
Proof. intro H. unfold get. now rewrite H. Qed.

Lemma get_throws (t : jsval) (k : string) : nullish t = true -> get t k = Throw TypeError.
Proof. intro H. unfold get. now rewrite H. Qed.

Lemma orelse_ok (a : jsval) (y : result jsval) :
  Ok a <||> y = if truthy a then Ok a else y.
Proof. reflexivity. Qed.

Lemma orelse_ok_ok (a b : jsval) : Ok a <||> Ok b = Ok (jsor a b).
Proof. unfold jsor. rewrite orelse_ok. now destruct (truthy a). Qed.

Lemma truthy_jsor (a b : jsval) : truthy b = true -> truthy (jsor a b) = true.
Proof. intro H. unfold jsor. destruct (truthy a) eqn:E; assumption. Qed.

(** ** The mapping of [/api/insights], without its failure *)

Definition insights_date (t : jsval) : jsval :=
  jsor (prop t "date") (jsor (prop t "datetime") (prop t "authorized_date")).

Definition insights_category (t : jsval) : jsval :=
  jsor (prop t "category")
       (jsor (optget (prop t "personal_finance_category") "primary") (VStr "Other")).

Definition insights_name (t : jsval) : jsval :=
  jsor (prop t "name") (jsor (prop t "merchant_name") (VStr "")).

Definition insights_record (t : jsval) : jsval :=
  VObj [("date", insights_date t); ("amount", prop t "amount");
        ("category", insights_category t); ("name", insights_name t)].

Lemma normalized_ok (t : jsval) :
  nullish t = false -> normalized t = Ok (insights_record t).
Proof.
  intro H. unfold normalized. rewrite !(get_ok t _ H).
  cbn [bind]. rewrite !orelse_ok_ok. reflexivity.
Qed.

Lemma normalized_throws (t : jsval) :
  nullish t = true -> normalized t = Throw TypeError.
Proof. intro H. unfold normalized. now rewrite !(get_throws t _ H). Qed.

Lemma mapM_ok {A C} (f : A -> result C) (g : A -> C) (l : list A) :
  Forall (fun a => f a = Ok (g a)) l -> mapM f l = Ok (map g l).
Proof.
  intro H. induction H as [|a l Ha _ IH]; simpl; [reflexivity|].
  now rewrite Ha, IH.
Qed.

Lemma mapM_throws {A C} (f : A -> result C) (l1 l2 : list A) (a : A) :
  f a = Throw TypeError -> mapM f (l1 ++ a :: l2) = Throw TypeError.
Proof.
  intro H. induction l1 as [|x l1 IH]; simpl.
  - now rewrite H.
  - destruct (f x) as [c|[]]; simpl; [|reflexivity]. now rewrite IH.
Qed.

(** ** The mapping of [/api/upload-csv], without its failure *)

Definition csv_name (record : jsval) : jsval :=
  jsor (prop record "description")
    (jsor (prop record "Description")
      (jsor (prop record "NAME") (jsor (prop record "Merchant") (VStr "")))).

Definition csv_raw_amount (record : jsval) : jsval :=
  jsor (prop record "amount")
    (jsor (prop record "Amount")
      (jsor (prop record "DEBIT") (jsor (prop record "CREDIT") (VStr "0")))).

Definition csv_category (record : jsval) : jsval :=
  jsor (prop record "category") (jsor (prop record "Category") (VStr "Other")).

(** [parseFloat(text.replace(/[^\d.-]/g, '')) || 0] *)
Definition amount_value (text : string) : jsval :=
  jsor (of_number (parseFloat (replace_non_numeric text))) (VNum 0).

(** A parsed CSV row: one string per column. *)
Definition row_object (row : list (string * string)) : jsval :=
  VObj (map (fun e => (fst e, VStr (snd e))) row).

(** An ordered alias table: the value of the first alias bound to a
    non-empty string, or the default. *)
Fixpoint first_nonempty (aliases : list string) (default : string)
  (row : list (string * string)) : string :=
  match aliases with
  | [] => default
  | k :: rest =>
      match lookup k row with
      | Some s => if (s =? "")%string then first_nonempty rest default row else s
      | None => first_nonempty rest default row
      end
  end.


Definition has_digit (s : string) : bool :=
  existsb is_digit (list_ascii_of_string s).

(** The reading of the amount rule in the specification: of the minus
    signs only a leading one is kept, and what is left is read as one
    decimal number. *)
Fixpoint spec_strip (leading : bool) (s : string) : string :=
  match s with
  | EmptyString => EmptyString
  | String c s' =>
      if is_digit c || (c =? ".")%char then String c (spec_strip false s')
      else if (c =? "-")%char && leading then String c (spec_strip false s')
      else spec_strip leading s'
  end.

Definition spec_amount (text : string) : Q :=
  amount_or_zero (parseFloat (spec_strip true text)).

Lemma amount_value_number (text : string) :
  amount_value text = VNum (amount_or_zero (parseFloat (replace_non_numeric text))).
Proof.
  unfold amount_value, jsor. destruct (parseFloat _) as [q|]; simpl; [|reflexivity].
  now destruct (Qeqb0 q).
Qed.

Lemma replace_non_numeric_filter (s : string) :
  list_ascii_of_string (replace_non_numeric s)
  = filter numeric_char (list_ascii_of_string s).
Proof.
  induction s as [|c s IH]; simpl; [reflexivity|].
  destruct (numeric_char c); simpl; now rewrite IH.
Qed.

Lemma has_digit_skip_spaces (s : string) :
  has_digit s = false -> has_digit (skip_spaces s) = false.
Proof.
  unfold has_digit. induction s as [|c s IH]; simpl; [reflexivity|].
  intro H. apply orb_false_iff in H as [Hc Hs].
  destruct (is_space c); [now apply IH|]. simpl. now rewrite Hc, Hs.
Qed.

Lemma take_digits_no_digit (s : string) (acc : N) (len : nat) :
  has_digit s = false -> take_digits s acc len = (acc, len, s).
Proof.
  unfold has_digit. destruct s as [|c s]; simpl; [reflexivity|].
  intro H. apply orb_false_iff in H as [Hc _].
  unfold is_digit in Hc. now destruct (digit_of c).
Qed.

Lemma has_digit_tail (c : ascii) (s : string) :
  has_digit (String c s) = false -> has_digit s = false.
Proof. unfold has_digit. simpl. intro H. now apply orb_false_iff in H. Qed.

(** A text without any digit is not a number. *)
Lemma parseFloat_no_digit (s : string) : has_digit s = false -> parseFloat s = None.
Proof.
  intro H. apply has_digit_skip_spaces in H. unfold parseFloat.
  destruct (split_sign (skip_spaces s)) as [neg s1] eqn:Es.
  assert (has_digit s1 = false) as H1.
  { unfold split_sign in Es. destruct (skip_spaces s) as [|c r].
    - now injection Es as _ <-.
    - destruct (c =? "-")%char; [injection Es as _ <-; now apply has_digit_tail in H|].
      destruct (c =? "+")%char; injection Es as _ <-; [now apply has_digit_tail in H|exact H]. }
  rewrite (take_digits_no_digit s1 _ _ H1).
  destruct (after_point s1) as [r|] eqn:Ep; [|reflexivity].
  assert (has_digit r = false) as Hr.
  { unfold after_point in Ep. destruct s1 as [|c r']; [discriminate|].
    destruct (c =? ".")%char; [|discriminate]. injection Ep as <-.
    now apply has_digit_tail in H1. }
  now rewrite (take_digits_no_digit r _ _ Hr).
Qed.

Lemma has_digit_replace (s : string) :
  has_digit (replace_non_numeric s) = has_digit s.
Proof.
  unfold has_digit. induction s as [|c s IH]; simpl; [reflexivity|].
  unfold numeric_char. destruct (is_digit c) eqn:E; simpl.
  - now rewrite E.
  - destruct ((c =? ".")%char || (c =? "-")%char); simpl; [rewrite E|]; exact IH.
Qed.

Lemma prop_row (row : list (string * string)) (k : string) :
  prop (row_object row) k
  = match lookup k row with Some s => VStr s | None => VUndefined end.
Proof.
  unfold row_object, prop. induction row as [|[k' v] row IH]; simpl; [reflexivity|].
  destruct (k =? k')%string; [reflexivity|exact IH].
Qed.

Lemma jsor_row (row : list (string * string)) (k rest : string) :
  jsor (prop (row_object row) k) (VStr rest)
  = VStr (match lookup k row with
          | Some s => if (s =? "")%string then rest else s
          | None => rest
          end).
Proof.
  rewrite prop_row. unfold jsor. destruct (lookup k row) as [s|]; simpl; [|reflexivity].
  now destruct (s =? "")%string.
Qed.

Lemma csv_raw_amount_row (row : list (string * string)) :
  csv_raw_amount (row_object row)
  = VStr (first_nonempty ["amount"; "Amount"; "DEBIT"; "CREDIT"] "0" row).
Proof. unfold csv_raw_amount. rewrite !jsor_row. reflexivity. Qed.

Lemma csv_name_row (row : list (string * string)) :
  csv_name (row_object row)
  = VStr (first_nonempty ["description"; "Description"; "NAME"; "Merchant"] "" row).
Proof. unfold csv_name. rewrite !jsor_row. reflexivity. Qed.

Lemma csv_category_row (row : list (string * string)) :
  csv_category (row_object row)
  = VStr (first_nonempty ["category"; "Category"] "Other" row).
Proof. unfold csv_category. rewrite !jsor_row. reflexivity. Qed.

Lemma first_nonempty_default (aliases : list string) (default : string)
  (row : list (string * string)) :
  default <> "" -> first_nonempty aliases default row <> "".
Proof.
  intro H. induction aliases as [|k rest IH]; simpl; [exact H|].
  destruct (lookup k row) as [s|]; [|exact IH].
  destruct (s =? "")%string eqn:E; [exact IH|]. now apply String.eqb_neq in E.
Qed.

(** ** Claims about the mapping of [/api/insights] *)

(** A bank record carrying both the legacy category list and the
    structured personal-finance category. *)
Definition bank_record : jsval :=
  VObj [("date", VStr "2024-01-05"); ("amount", VNum 12);
        ("category", VArr [VStr "Food and Drink"; VStr "Restaurants"]);
        ("personal_finance_category",
         VObj [("primary", VStr "FOOD_AND_DRINK");
               ("detailed", VStr "FOOD_AND_DRINK_RESTAURANT")]);
        ("name", VStr "Cafe")].

Lemma legacy_category_first (t : jsval) :
  truthy (prop t "category") = true -> insights_category t = prop t "category".
Proof. intro H. unfold insights_category, jsor. now rewrite H. Qed.

(** C2 on the code: when both fields are present the mapping of
    [/api/insights] keeps the legacy category, whose first element becomes
    the label, where the frontend's mapping of the same record takes the
    primary personal-finance category. *)
Theorem legacy_category_precedence :
  (exists r,
      normalized bank_record = Ok r
      /\ prop r "category" = VArr [VStr "Food and Drink"; VStr "Restaurants"]
      /\ category_label (prop r "category") = VStr "Food and Drink")
  /\ (exists r,
        Frontend.refreshData_record bank_record = Ok r
        /\ prop r "category" = VStr "FOOD_AND_DRINK").
Proof. split; eexists; repeat split. Qed.

(** C5 fails as stated: a record without a category and with a primary
    personal-finance category gets that label, not ["Other"]; and a
    category list whose first element is empty gets ["Other"]. *)
Lemma category_default_counterexample :
  (exists r,
      normalized (VObj [("amount", VNum 12);
                        ("personal_finance_category", VObj [("primary", VStr "TRAVEL")])])
      = Ok r
      /\ prop r "category" = VStr "TRAVEL")
  /\ (exists r,
        normalized (VObj [("amount", VNum 12);
                          ("category", VArr [VStr ""; VStr "RESTAURANTS"])])
        = Ok r
        /\ category_label (prop r "category") = VStr "Other").
Proof. split; eexists; repeat split. Qed.

Lemma truthy_string (s : string) : s <> "" -> truthy (VStr s) = true.
Proof. intro H. simpl. apply negb_true_iff. now apply String.eqb_neq. Qed.

(** C5, as amended: the normalised record keeps the category value and
    [computeInsights] takes the label from it.  In a record without a
    primary personal-finance category, for a list of strings with a
    non-empty first element the label is that element, and for an empty
    list or an empty first element it is ["Other"]; when the category is
    absent or falsy, the category is the primary personal-finance category
    if that is a non-empty string, and ["Other"] if that is absent or falsy
    too.  Nothing is said of a record that carries both a category and a
    primary personal-finance category. *)
Theorem category_resolution (t : jsval) :
  nullish t = false ->
  exists r,
    normalized t = Ok r
    /\ (truthy (optget (prop t "personal_finance_category") "primary") = false ->
        (forall c rest, prop t "category" = VArr (VStr c :: rest) -> c <> "" ->
                        category_label (prop r "category") = VStr c)
        /\ (forall rest, prop t "category" = VArr (VStr "" :: rest) ->
                         category_label (prop r "category") = VStr "Other")
        /\ (prop t "category" = VArr [] ->
            category_label (prop r "category") = VStr "Other"))
    /\ (truthy (prop t "category") = false ->
        (forall p, optget (prop t "personal_finance_category") "primary" = VStr p ->
                   p <> "" -> prop r "category" = VStr p)
        /\ (truthy (optget (prop t "personal_finance_category") "primary") = false ->
            prop r "category" = VStr "Other")).
Proof.
  intro H. exists (insights_record t). split; [now apply normalized_ok|].
  change (prop (insights_record t) "category") with (insights_category t).
  split; [intros _; split; [|split]|intro Hf; split].
  - intros c rest Hc Hne. rewrite legacy_category_first by now rewrite Hc.
    rewrite Hc. unfold category_label, jsand, jsor. cbn.
    now rewrite (proj2 (String.eqb_neq c "") Hne).
  - intros rest Hc. rewrite legacy_category_first by now rewrite Hc.
    now rewrite Hc.
  - intros Hc. rewrite legacy_category_first by now rewrite Hc.
    now rewrite Hc.
  - intros p Hp Hne. unfold insights_category, jsor. rewrite Hf, Hp.
    now rewrite (truthy_string p Hne).
  - intros Hp. unfold insights_category, jsor. now rewrite Hf, Hp.
Qed.

Lemma category_resolution_witness :
  nullish (VObj [("category", VArr [VStr "FOOD_AND_DRINK"; VStr "RESTAURANTS"])]) = false
  /\ exists r,
       normalized (VObj [("category", VArr [VStr "FOOD_AND_DRINK"; VStr "RESTAURANTS"])]) = Ok r
       /\ category_label (prop r "category") = VStr "FOOD_AND_DRINK".
Proof.
  split; [reflexivity|].
  destruct (category_resolution
              (VObj [("category", VArr [VStr "FOOD_AND_DRINK"; VStr "RESTAURANTS"])])
              eq_refl) as (r & Hr & Hlist & _).
  exists r. split; [exact Hr|].
  apply (proj1 (Hlist eq_refl) "FOOD_AND_DRINK" [VStr "RESTAURANTS"] eq_refl).
  discriminate.
Defined.

(** C6 fails as stated: the mapping of [/api/insights] does not fail on
    the number 5, which is no mapping; on the empty mapping its amount is
    [undefined], not a number; and a numeric category is kept as it is. *)
Lemma normalize_shape_counterexample :
  normalized (VNum 5)
  = Ok (VObj [("date", VUndefined); ("amount", VUndefined);
              ("category", VStr "Other"); ("name", VStr "")])
  /\ normalized (VObj [])
     = Ok (VObj [("date", VUndefined); ("amount", VUndefined);
                 ("category", VStr "Other"); ("name", VStr "")])
  /\ normalized (VObj [("amount", VStr "N/A"); ("category", VNum 7)])
     = Ok (VObj [("date", VUndefined); ("amount", VStr "N/A");
                 ("category", VNum 7); ("name", VStr "")]).
Proof. repeat split. Qed.

Section Csv.
Context {B : Builtins}.

Lemma first_column_ok (record : jsval) :
  nullish record = false -> exists v, first_column record = Ok v.
Proof.
  intro H. unfold first_column.
  assert (exists ks, Object_keys record = Ok ks) as [ks ->]
    by (destruct record; simpl in *; try discriminate; eauto).
  cbn [bind]. rewrite (get_ok _ _ H). eauto.
Qed.

Lemma csv_record_ok (record : jsval) :
  nullish record = false ->
  exists d,
    csv_record record =
      (text <- toString (csv_raw_amount record) ;;
       Ok (VObj [("date", d); ("name", csv_name record);
                 ("amount", amount_value text); ("category", csv_category record)])).
Proof.
  intro H. destruct (first_column_ok record H) as [v Hv].
  exists (jsor (prop record "date")
           (jsor (prop record "Date") (jsor (prop record "TRANSACTION_DATE") v))).
  unfold csv_record. rewrite Hv, !(get_ok record _ H), !orelse_ok_ok.
  reflexivity.
Qed.

Lemma csv_row_ok (row : list (string * string)) :
  exists d,
    csv_record (row_object row) =
      Ok (VObj [("date", d);
                ("name", VStr (first_nonempty ["description"; "Description"; "NAME"; "Merchant"] "" row));
                ("amount",
                 VNum (amount_or_zero
                         (parseFloat
                            (replace_non_numeric
                               (first_nonempty ["amount"; "Amount"; "DEBIT"; "CREDIT"] "0" row)))));
                ("category", VStr (first_nonempty ["category"; "Category"] "Other" row))]).
Proof.
  destruct (csv_record_ok (row_object row) eq_refl) as [d Hd].
  exists d. rewrite Hd, csv_raw_amount_row, csv_name_row, csv_category_row.
  cbn [toString nullish convertible ToString bind]. now rewrite amount_value_number.
Qed.

(** ** Claims about the CSV mapping *)

(** C4, as amended: the amount of a CSV row is read from the first of
    [amount], [Amount], [DEBIT], [CREDIT] that is bound to a non-empty
    string (["0"] when there is none); every character that is not a digit,
    a decimal point or a minus sign is removed, the minus signs staying
    wherever they stand; the longest leading decimal numeral of the rest is
    the amount, and a text without a digit gives 0.  So ["$1,234.56"] is
    1234.56, ["N/A"] is 0 and ["12-34"] is 12. *)
Theorem csv_amount_resolution (row : list (string * string)) :
  let text := first_nonempty ["amount"; "Amount"; "DEBIT"; "CREDIT"] "0" row in
  (exists r,
      csv_record (row_object row) = Ok r
      /\ prop r "amount" = VNum (amount_or_zero (parseFloat (replace_non_numeric text))))
  /\ list_ascii_of_string (replace_non_numeric text)
     = filter numeric_char (list_ascii_of_string text)
  /\ (has_digit text = false ->
      exists r, csv_record (row_object row) = Ok r /\ prop r "amount" = VNum 0)
  /\ (exists r q,
        csv_record (row_object [("amount", "$1,234.56")]) = Ok r
        /\ prop r "amount" = VNum q /\ q == 1234.56)
  /\ (exists r, csv_record (row_object [("amount", "N/A")]) = Ok r
                /\ prop r "amount" = VNum 0)
  /\ (exists r, csv_record (row_object [("amount", "12-34")]) = Ok r
                /\ prop r "amount" = VNum 12).
Proof.
  intro text. subst text.
  assert (forall row', exists r,
             csv_record (row_object row') = Ok r
             /\ prop r "amount"
                = VNum (amount_or_zero
                          (parseFloat
                             (replace_non_numeric
                                (first_nonempty ["amount"; "Amount"; "DEBIT"; "CREDIT"] "0" row')))))
    as Hrow.
  { intro row'. destruct (csv_row_ok row') as [d Hd]. eexists. split; [exact Hd|reflexivity]. }
  split; [apply Hrow|]. split; [apply replace_non_numeric_filter|]. split.
  - intro Hno. destruct (Hrow row) as (r & Hr & Ha). exists r. split; [exact Hr|].
    rewrite Ha, parseFloat_no_digit; [reflexivity|]. now rewrite has_digit_replace.
  - split; [|split].
    + destruct (Hrow [("amount", "$1,234.56")]) as (r & Hr & Ha).
      exists r. eexists. split; [exact Hr|]. split; [exact Ha|]. vm_compute. reflexivity.
    + destruct (Hrow [("amount", "N/A")]) as (r & Hr & Ha). exists r. now split.
    + destruct (Hrow [("amount", "12-34")]) as (r & Hr & Ha). exists r. now split.
Qed.




















(** ** Claims about failure *)

Lemma scalar_jsor (a b : jsval) :
  Aggregation.scalar a = true -> Aggregation.scalar b = true ->
  Aggregation.scalar (jsor a b) = true.
Proof. intros Ha Hb. unfold jsor. now destruct (truthy a). Qed.

Lemma category_shape_jsor (a b : jsval) :
  Aggregation.category_shape a = true -> Aggregation.category_shape b = true ->
  Aggregation.category_shape (jsor a b) = true.
Proof. intros Ha Hb. unfold jsor. now destruct (truthy a). Qed.

Lemma insights_record_safe (t : jsval) :
  Aggregation.well_formed t -> Aggregation.safe (insights_record t).
Proof.
  intros (_ & Ha & Hd & Hdt & Had & Hn & Hm & Hc & Hp).
  assert (Aggregation.category_shape (insights_category t) = true) as Hcat
    by (unfold insights_category; repeat apply category_shape_jsor; auto).
  split; [reflexivity|]. split; [|split; [|split; [|split; [|split]]]].
  - change (prop (insights_record t) "amount") with (prop t "amount").
    now apply Aggregation.scalar_convertible.
  - change (prop (insights_record t) "date") with (insights_date t).
    apply Aggregation.scalar_convertible. unfold insights_date.
    now repeat apply scalar_jsor.
  - change (prop (insights_record t) "name") with (insights_name t).
    apply Aggregation.scalar_convertible. unfold insights_name.
    now repeat apply scalar_jsor.
  - change (prop (insights_record t) "category") with (insights_category t).
    now apply Aggregation.category_shape_convertible.
  - change (prop (insights_record t) "category") with (insights_category t).
    now apply Aggregation.scalar_convertible, Aggregation.category_label_scalar.
  - change (prop (insights_record t) "date") with (insights_date t).
    apply Aggregation.scalar_parses. unfold insights_date.
    now repeat apply scalar_jsor.
Qed.

Lemma body_transactions (body : jsval) :
  get (jsor body (VObj [])) "transactions"
  = Ok (prop (jsor body (VObj [])) "transactions").
Proof.
  apply get_ok. unfold jsor. destruct (truthy body) eqn:E; [|reflexivity].
  now destruct body.
Qed.

Lemma insights_route_rejects (srv : server) (body : jsval) :
  isArray (prop (jsor body (VObj [])) "transactions") = false ->
  insights_route srv body = (srv, ErrorJson 400 "transactions[] required").
Proof.
  intro H. unfold insights_route. rewrite body_transactions. cbn [bind].
  now destruct (prop (jsor body (VObj [])) "transactions").
Qed.

Lemma insights_route_server (srv : server) (body : jsval) :
  fst (insights_route srv body) = srv.
Proof. reflexivity. Qed.

(** C6, as amended: on every value that is not [null] or [undefined]
    (every mapping, the empty one included) the mapping of [/api/insights]
    succeeds, passes the amount on as it is and yields a truthy category
    (["Other"] by default); on [null] and [undefined] both mappings raise
    a TypeError, which the route answers with status 500; and on every CSV
    row the CSV mapping succeeds with a number as amount and a non-empty
    string as category. *)
Theorem normalize_outcomes (record : jsval) :
  (nullish record = false ->
   exists r,
     normalized record = Ok r
     /\ prop r "amount" = prop record "amount"
     /\ truthy (prop r "category") = true)
  /\ (nullish record = true ->
      normalized record = Throw TypeError
      /\ csv_record record = Throw TypeError
      /\ forall srv before after,
           insights_route srv
             (VObj [("transactions", VArr (before ++ record :: after))])
           = (srv, ErrorJson 500 "Failed to compute insights"))
  /\ (forall row, exists r q c,
        csv_record (row_object row) = Ok r
        /\ prop r "amount" = VNum q
        /\ prop r "category" = VStr c /\ c <> "").
Proof.
  split; [|split].
  - intro H. exists (insights_record record).
    split; [now apply normalized_ok|]. split; [reflexivity|].
    change (prop (insights_record record) "category") with (insights_category record).
    unfold insights_category. now repeat apply truthy_jsor.
  - intro H. split; [now apply normalized_throws|]. split.
    + unfold csv_record. now rewrite !(get_throws record _ H).
    + intros srv before after. unfold insights_route.
      rewrite body_transactions.
      change (prop (jsor (VObj [("transactions", VArr (before ++ record :: after))])
                         (VObj [])) "transactions")
        with (VArr (before ++ record :: after)).
      cbn [bind].
      now rewrite (mapM_throws normalized before after record (normalized_throws record H)).
  - intro row. destruct (csv_row_ok row) as [d Hd].
    eexists. eexists. eexists. split; [exact Hd|]. split; [reflexivity|].
    split; [reflexivity|]. now apply first_nonempty_default.
Qed.

(** The characters of a string carry no amount: the loop passes over
    them. *)
Lemma loop_string_chars (s : string) (st : Q * list (string * jsval)) :
  loop st (string_chars s) = Ok st.
Proof.
  induction s as [|c s IH]; [reflexivity|].
  destruct st as [total cats]. cbn [string_chars loop].
  change (step (total, cats) (VStr (String c EmptyString))) with (Ok (total, cats)).
  exact IH.
Qed.

(** C7, as amended: on a sequence of well-formed transactions
    [computeInsights] returns its insights.  The function has no check of
    its argument: it takes a string for the sequence of its characters and
    returns the empty insights, and it raises a TypeError on every other
    value that is no array.  The check is made by the route that calls
    it: a body whose [transactions] is not an array is answered with
    status 400 and the message that an array is required, whatever the
    server state, which no request to the route changes; on an array of
    well-formed transactions the route answers with the insights. *)
Theorem insights_input_shape (srv : server) (body : jsval) :
  fst (insights_route srv body) = srv
  /\ (isArray (prop (jsor body (VObj [])) "transactions") = false ->
      insights_route srv body = (srv, ErrorJson 400 "transactions[] required"))
  /\ (forall ts, Forall Aggregation.well_formed ts ->
                 exists ins, computeInsights ts = Ok ins
                             /\ computeInsights_of (VArr ts) = Ok ins)
  /\ (forall ts, prop (jsor body (VObj [])) "transactions" = VArr ts ->
                 Forall Aggregation.well_formed ts ->
                 exists ins, insights_route srv body = (srv, InsightsJson ins))
  /\ (forall s, computeInsights_of (VStr s)
                = Ok {| totalThisMonth := 0; topCategories := [] |})
  /\ (forall v, isArray v = false -> (forall s, v <> VStr s) ->
                computeInsights_of v = Throw TypeError).
Proof.
  split; [apply insights_route_server|].
  split; [apply insights_route_rejects|]. split; [|split; [|split]].
  - intros ts Hwf. eexists. split; [|cbn [computeInsights_of get nullish bind]];
      apply Aggregation.computeInsights_safe, Aggregation.well_formed_all_safe, Hwf.
  - intros ts Hts Hwf. unfold insights_route.
    rewrite body_transactions, Hts. cbn [bind].
    rewrite (mapM_ok normalized insights_record).
    + cbn [bind]. rewrite Aggregation.computeInsights_safe.
      * cbn [bind]. eexists. reflexivity.
      * apply Forall_map. eapply Forall_impl; [|exact Hwf].
        apply insights_record_safe.
    + eapply Forall_impl; [|exact Hwf].
      intros t ([o ->] & _). now apply normalized_ok.
  - intro s. unfold computeInsights_of, computeInsights.
    cbn [get nullish bind]. now rewrite loop_string_chars.
  - intros v Hv Hs. destruct v; try reflexivity; [|discriminate].
    now contradiction (Hs s).
Qed.

End Csv.

(** ** Concrete records *)

(** C4 fails as stated: a minus sign inside the text is kept and ends the
    number, so ["12-34"] is read as 12, where the rule of the
    specification drops that sign and reads 1234. *)
Lemma csv_amount_counterexample :
  (exists r,
      csv_record (B := Reference.builtins) (row_object [("amount", "12-34")]) = Ok r
      /\ prop r "amount" = VNum 12)
  /\ spec_amount "12-34" = 1234.
Proof. split; [eexists; split; reflexivity|reflexivity]. Qed.

(** C7 fails as stated: given the string ["all"], which is no sequence of
    transactions, [computeInsights] signals nothing and returns an
    insights value; the same value inside a request body is what the
    route refuses. *)
Lemma computeInsights_shape_counterexample :
  computeInsights_of (B := Reference.builtins) (VStr "all")
  = Ok {| totalThisMonth := 0; topCategories := [] |}
  /\ insights_route (B := Reference.builtins) {| ACCESS_TOKEN := None |}
       (VObj [("transactions", VStr "all")])
     = ({| ACCESS_TOKEN := None |}, ErrorJson 400 "transactions[] required").
Proof. split; reflexivity. Qed.

Lemma csv_amount_resolution_witness :
  has_digit (first_nonempty ["amount"; "Amount"; "DEBIT"; "CREDIT"] "0" [("amount", "N/A")])
  = false
  /\ exists r,
       csv_record (B := Reference.builtins) (row_object [("amount", "N/A")]) = Ok r
       /\ prop r "amount" = VNum 0.
Proof.
  split; [reflexivity|].
  apply (proj1 (proj2 (proj2 (csv_amount_resolution (B := Reference.builtins)
                                [("amount", "N/A")])))).
  reflexivity.
Defined.


Lemma normalize_outcomes_witness :
  nullish (VObj []) = false
  /\ exists r,
       normalized (VObj []) = Ok r
       /\ prop r "amount" = prop (VObj []) "amount"
       /\ truthy (prop r "category") = true.
Proof.
  split; [reflexivity|].
  apply (proj1 (normalize_outcomes (B := Reference.builtins) (VObj []))).
  reflexivity.
Defined.

Lemma insights_input_shape_witness :
  isArray (prop (jsor (VObj [("transactions", VStr "all")]) (VObj [])) "transactions") = false
  /\ insights_route (B := Reference.builtins) {| ACCESS_TOKEN := None |}
       (VObj [("transactions", VStr "all")])
     = ({| ACCESS_TOKEN := None |}, ErrorJson 400 "transactions[] required")
  /\ exists ins,
       insights_route (B := Reference.builtins) {| ACCESS_TOKEN := None |}
         (VObj [("transactions", VArr Aggregation.scenario)])
       = ({| ACCESS_TOKEN := None |}, InsightsJson ins).
Proof.
  split; [reflexivity|]. split.
  - apply (proj1 (proj2 (insights_input_shape (B := Reference.builtins)
                           {| ACCESS_TOKEN := None |}
                           (VObj [("transactions", VStr "all")])))).
    reflexivity.
  - apply (proj1 (proj2 (proj2 (proj2 (insights_input_shape (B := Reference.builtins)
                                  {| ACCESS_TOKEN := None |}
                                  (VObj [("transactions", VArr Aggregation.scenario)])))))
             Aggregation.scenario eq_refl Aggregation.scenario_well_formed).
Defined.

End Normalization.

(* ================================================================== *)
(** * More on the aggregation: failure, category sums, the ranking *)

Module Ledger.
Import JS Backend Aggregation.

(** The sum the loop accumulates under label [k]. *)
Definition entry_of (es : list Q) : option jsval :=
  match es with
  | [] => None
  | _ :: _ => Some (VNum (sumQ es))
  end.

Lemma sumQ_snoc (es : list Q) (e : Q) : sumQ (es ++ [e]) = sumQ es + e.
Proof. unfold sumQ. now rewrite fold_left_app. Qed.

Lemma sumQ_perm (l l' : list Q) : Permutation l l' -> sumQ l == sumQ l'.
Proof.
  intro H. induction H.
  - reflexivity.
  - rewrite !sumQ_cons. now rewrite IHPermutation.
  - rewrite !sumQ_cons. lra.
  - now rewrite IHPermutation1.
Qed.

Lemma add_new_In (seen : list string) (k k' : string) :
  In k' (add_new seen k) <-> In k' seen \/ k' = k.
Proof.
  unfold add_new. destruct (existsb (String.eqb k) seen) eqn:E.
  - split; [now left|]. intros [H| ->]; [exact H|].
    apply existsb_exists in E as (x & Hx & Hk). apply String.eqb_eq in Hk. now subst.
  - rewrite in_app_iff. simpl. intuition.
Qed.

Lemma add_new_NoDup (seen : list string) (k : string) :
  NoDup seen -> NoDup (add_new seen k).
Proof.
  intro H. unfold add_new. destruct (existsb (String.eqb k) seen) eqn:E; [exact H|].
  apply NoDup_app; [exact H|repeat constructor; intros []|].
  intros x Hx Hk. destruct Hk as [Hk|[]]. subst x.
  assert (existsb (String.eqb k) seen = true) as C
    by (apply existsb_exists; exists k; split; [exact Hx|apply String.eqb_refl]).
  congruence.
Qed.

Lemma write_keys (cats : list (string * jsval)) (k : string) (v : jsval) :
  map fst (write cats k v)
  = if (k =? "__proto__")%string then map fst cats else add_new (map fst cats) k.
Proof. unfold write. destruct (k =? "__proto__")%string; [reflexivity|apply update_keys]. Qed.

Lemma firstn_NoDup {A} (n : nat) (l : list A) : NoDup l -> NoDup (firstn n l).
Proof.
  intro H. rewrite <- (firstn_skipn n l) in H. now apply NoDup_app_remove_r in H.
Qed.

Lemma StronglySorted_app_inv {A} (R : A -> A -> Prop) (l1 l2 : list A) :
  StronglySorted R (l1 ++ l2) -> forall a b, In a l1 -> In b l2 -> R a b.
Proof.
  induction l1 as [|x l1 IH]; simpl; intros H a b Ha Hb; [contradiction|].
  apply StronglySorted_inv in H as [Hs Hall]. destruct Ha as [<-|Ha].
  - rewrite Forall_forall in Hall. apply Hall, in_or_app. now right.
  - now apply (IH Hs).
Qed.

Section Facts.
Context {B : Builtins}.

(** ** When [computeInsights] fails *)

(** What one iteration needs: the element is not [null] or
    [undefined], its amount, name and category convert to a primitive,
    and its date is one that [dayjs] accepts. *)
Definition readable (t : jsval) : bool :=
  negb (nullish t)
  && convertible (prop t "amount")
  && parses (prop t "date")
  && convertible (prop t "name")
  && convertible (prop t "category").

Lemma convertible_first (l : list jsval) :
  convertible (VArr l) = true -> convertible (nth 0 l VUndefined) = true.
Proof.
  destruct l as [|x l]; simpl; [reflexivity|].
  intro H. now apply andb_true_iff in H.
Qed.

Lemma convertible_category_label (c : jsval) :
  convertible c = true -> convertible (category_label c) = true.
Proof.
  intro H. unfold category_label, jsor, jsand.
  destruct (truthy c) eqn:Ht.
  - destruct c; simpl in *; try discriminate;
      repeat match goal with |- context [if ?b then _ else _] => destruct b eqn:? end;
      try reflexivity; try exact H.
    now apply convertible_first in H.
  - rewrite Ht. reflexivity.
Qed.

Lemma readable_safe (t : jsval) : readable t = true <-> safe t.
Proof.
  unfold readable, safe. rewrite !andb_true_iff, negb_true_iff. split.
  - intros ((((Hn & Ha) & Hd) & Hnm) & Hc). repeat split; auto.
    + unfold parses in Hd. now apply andb_true_iff in Hd.
    + now apply convertible_category_label.
  - intros (Hn & Ha & _ & Hnm & Hc & _ & Hd). repeat split; auto.
Qed.

Lemma step_unreadable (st : Q * list (string * jsval)) (t : jsval) :
  readable t = false -> step st t = Throw TypeError.
Proof.
  intro H. destruct st as [total cats]. unfold step, get, Number, interpolate, dayjs.
  unfold readable in H.
  destruct (nullish t); [reflexivity|]. cbn [bind].
  destruct (convertible (prop t "amount")); [|reflexivity]. cbn [bind].
  destruct (parses (prop t "date")); [|reflexivity]. cbn [bind].
  destruct (convertible (prop t "name")); [|reflexivity]. cbn [bind].
  destruct (convertible (prop t "date")); [|reflexivity]. cbn [bind].
  destruct (convertible (prop t "category")); [simpl in H; discriminate|reflexivity].
Qed.

Lemma loop_outcome (ts : list jsval) (st : Q * list (string * jsval)) :
  loop st ts
  = if forallb readable ts then Ok (fold_left accumulate ts st) else Throw TypeError.
Proof.
  revert st. induction ts as [|t ts IH]; intro st; simpl; [reflexivity|].
  destruct (readable t) eqn:E; simpl.
  - rewrite (step_safe st t (proj1 (readable_safe t) E)). simpl. apply IH.
  - now rewrite (step_unreadable st t E).
Qed.

(** [computeInsights] returns exactly on the batches all of whose
    elements are readable, and raises a TypeError on every other batch,
    wherever the unreadable element stands: an element that is [null] or
    [undefined], an amount, name or category that has no primitive form,
    or a date that [dayjs] does not accept. *)
Theorem computeInsights_failure (ts : list jsval) :
  (forallb readable ts = true -> exists ins, computeInsights ts = Ok ins)
  /\ (forallb readable ts = false -> computeInsights ts = Throw TypeError).
Proof.
  unfold computeInsights. rewrite loop_outcome.
  split; intros ->; [eexists|]; reflexivity.
Qed.

(** ** The labels of the ranking *)

Lemma accumulate_keys (st : Q * list (string * jsval)) (t : jsval) :
  NoDup (map fst (snd st)) ->
  NoDup (map fst (snd (accumulate st t)))
  /\ forall k, In k (map fst (snd (accumulate st t))) ->
               In k (map fst (snd st)) \/ (included t = true /\ label t = k).
Proof.
  intro H. unfold accumulate. destruct (included t); [|now split; [|left]].
  cbn [snd]. rewrite write_keys.
  destruct (label t =? "__proto__")%string; [now split; [|left]|].
  split; [now apply add_new_NoDup|].
  intros k Hk. apply add_new_In in Hk as [Hk| ->]; [now left|now right].
Qed.

Lemma fold_accumulate_keys (ts : list jsval) (st : Q * list (string * jsval)) :
  NoDup (map fst (snd st)) ->
  NoDup (map fst (snd (fold_left accumulate ts st)))
  /\ forall k, In k (map fst (snd (fold_left accumulate ts st))) ->
               In k (map fst (snd st))
               \/ exists t, In t ts /\ included t = true /\ label t = k.
Proof.
  revert st. induction ts as [|t ts IH]; intros st H; simpl; [now split; [|left]|].
  destruct (accumulate_keys st t H) as [Hn Hk].
  destruct (IH _ Hn) as [Hn' Hk']. split; [exact Hn'|].
  intros k Hin. destruct (Hk' k Hin) as [Hold|(t' & Ht' & Hi & Hl)].
  - destruct (Hk k Hold) as [Hold'|[Hi Hl]]; [now left|].
    right. exists t. now repeat split; [left|..].
  - right. exists t'. now repeat split; [right|..].
Qed.

Lemma ranking_names (cats : list (string * jsval)) :
  map name (ranking cats) = firstn 5 (map fst (sort (own_entries cats))).
Proof. unfold ranking. now rewrite map_map, <- firstn_map. Qed.

Lemma sorted_entries_perm (cats : list (string * jsval)) :
  Permutation (sort (own_entries cats)) cats.
Proof. rewrite sort_perm. apply own_entries_perm. Qed.

(** The ranking names each category once, and only categories that some
    transaction of non-zero magnitude in the batch carries. *)
Theorem ranking_labels (ts : list jsval) (ins : Insights) :
  computeInsights ts = Ok ins ->
  NoDup (map name (topCategories ins))
  /\ forall c, In c (topCategories ins) ->
               exists t, In t ts /\ included t = true /\ label t = name c.
Proof.
  unfold computeInsights. rewrite loop_outcome.
  destruct (forallb readable ts); [|discriminate].
  cbn [bind]. intros [= <-]. cbn [topCategories].
  destruct (fold_accumulate_keys ts (0, []) (NoDup_nil _)) as [Hn Hk].
  set (cats := snd (fold_left accumulate ts (0, []))) in *.
  assert (Permutation (map fst (sort (own_entries cats))) (map fst cats)) as Hp
    by apply Permutation_map, sorted_entries_perm.
  split.
  - rewrite ranking_names. apply firstn_NoDup.
    apply (Permutation_NoDup (Permutation_sym Hp) Hn).
  - intros c Hc. apply (in_map name) in Hc. rewrite ranking_names in Hc.
    apply firstn_In in Hc. apply (Permutation_in _ Hp) in Hc.
    destruct (Hk _ Hc) as [[]|H]. exact H.
Qed.

(** ** The sum under each label *)

(** The magnitudes the batch carries under label [k], in order. *)
Definition hits (k : string) (ts : list jsval) : list Q :=
  map expense (filter (fun t => included t && (label t =? k)%string) ts).

Lemma entry_of_snoc (es : list Q) (e : Q) :
  entry_of (es ++ [e]) = Some (VNum (sumQ es + e)).
Proof.
  rewrite <- sumQ_snoc. destruct es; reflexivity.
Qed.

Lemma hits_snoc (k : string) (ts : list jsval) (t : jsval) :
  hits k (ts ++ [t])
  = (hits k ts
     ++ if included t && (label t =? k)%string then [expense t] else [])%list.
Proof.
  unfold hits. rewrite filter_app, map_app. simpl.
  now destruct (included t && (label t =? k)%string).
Qed.

Lemma fold_accumulate_sums (ts : list jsval) :
  clean ts ->
  forall k, lookup k (snd (fold_left accumulate ts (0, []))) = entry_of (hits k ts).
Proof.
  induction ts as [|t ts IH] using rev_ind; intros Hc k; [reflexivity|].
  apply Forall_app in Hc as [Hc Ht]. apply Forall_inv in Ht.
  pose proof (run_consistent ts Hc) as (Hpos & _ & _).
  specialize (IH Hc).
  rewrite fold_left_app, hits_snoc. cbn [fold_left].
  destruct (fold_left accumulate ts (0, [])) as [total cats]. cbn [snd] in *.
  unfold accumulate. destruct (included t) eqn:Hin; cbn [fst snd andb];
    [|rewrite app_nil_r; apply IH].
  specialize (Ht eq_refl).
  assert ((label t =? "__proto__")%string = false) as Hnp.
  { destruct (label t =? "__proto__")%string eqn:E; [|reflexivity].
    apply String.eqb_eq in E. rewrite E in Ht. discriminate. }
  unfold write. rewrite Hnp.
  destruct (label t =? k)%string eqn:Ek.
  - apply String.eqb_eq in Ek. subst k.
    rewrite lookup_update_same, entry_of_snoc. f_equal.
    unfold read. rewrite (IH (label t)).
    destruct (hits (label t) ts) as [|h hs] eqn:Eh.
    + cbn [entry_of]. unfold inherited in Ht.
      destruct (lookup (label t) Object_prototype); [discriminate|]. reflexivity.
    + cbn [entry_of].
      assert (lookup (label t) cats = Some (VNum (sumQ (h :: hs)))) as Hl
        by (rewrite IH, Eh; reflexivity).
      pose proof (lookup_Forall _ _ _ _ Hpos Hl) as (q & Hq & Hq0).
      cbn [snd] in Hq. injection Hq as <-.
      assert (truthy (VNum (sumQ (h :: hs))) = true) as Htr.
      { simpl. destruct (Qeqb0 (sumQ (h :: hs))) eqn:E; [|reflexivity].
        apply Qeqb0_true in E. lra. }
      unfold jsor. rewrite Htr. apply jsadd_numbers.
  - rewrite app_nil_r, lookup_update_other; [apply IH|].
    rewrite String.eqb_sym. exact Ek.
Qed.

(** On a batch without inherited labels, the accumulator holds under each
    label the sum of the magnitudes of the transactions that carry it,
    added in batch order, and holds nothing under any other label. *)
Theorem category_sums (ts : list jsval) :
  Forall well_formed ts -> clean ts ->
  exists total cats,
    loop (0, []) ts = Ok (total, cats)
    /\ forall k, lookup k cats = entry_of (hits k ts).
Proof.
  intros Hwf Hc. pose proof (well_formed_all_safe ts Hwf) as Hs.
  pose proof (fold_accumulate_sums ts Hc) as H.
  destruct (fold_left accumulate ts (0, [])) as [total cats] eqn:Hrun.
  exists total, cats. split; [|exact H].
  now rewrite (loop_safe ts _ Hs), Hrun.
Qed.

(** ** What the ranking leaves out *)

(** On a batch without inherited labels, a category that is not listed
    has a total no larger than that of every listed category. *)
Theorem ranking_dominates (ts : list jsval) :
  Forall well_formed ts -> clean ts ->
  exists total cats,
    loop (0, []) ts = Ok (total, cats)
    /\ forall e, In e cats ->
         In {| name := fst e; total := snd e |} (ranking cats)
         \/ forall c, In c (ranking cats) ->
                      cell_value (snd e) <= cell_value (Backend.total c).
Proof.
  intros Hwf Hc. pose proof (well_formed_all_safe ts Hwf) as Hs.
  pose proof (run_consistent ts Hc) as (Hpos & _ & _).
  destruct (fold_left accumulate ts (0, [])) as [total cats] eqn:Hrun.
  cbn [snd] in Hpos. exists total, cats.
  split; [now rewrite (loop_safe ts _ Hs), Hrun|].
  intros e He.
  pose proof (sorted_entries_perm cats) as Hp.
  assert (descending (sort (own_entries cats))) as Hd.
  { apply sort_descending.
    apply (Permutation_Forall (Permutation_sym (own_entries_perm cats))).
    now apply positive_numeric. }
  apply (Permutation_in _ (Permutation_sym Hp)) in He.
  rewrite <- (firstn_skipn 5 (sort (own_entries cats))) in He, Hd.
  apply in_app_or in He as [He|He].
  - left. unfold ranking.
    apply (in_map (fun e => {| name := fst e; total := snd e |})) in He. exact He.
  - right. intros c Hin. unfold ranking in Hin.
    apply in_map_iff in Hin as (e' & <- & He'). cbn [Backend.total].
    exact (StronglySorted_app_inv _ _ _ Hd e' e He' He).
Qed.

(** On a batch without inherited labels the ranking lists
    [min(5, number of distinct labels)] categories: all of them when
    there are at most five. *)
Theorem ranking_size (ts : list jsval) :
  Forall well_formed ts -> clean ts ->
  exists ins,
    computeInsights ts = Ok ins
    /\ List.length (topCategories ins) = Nat.min 5 (List.length (first_seen ts)).
Proof.
  intros Hwf Hc. pose proof (well_formed_all_safe ts Hwf) as Hs.
  pose proof (run_consistent ts Hc) as (_ & _ & Hkeys).
  eexists. split; [apply (computeInsights_safe ts Hs)|].
  cbn [topCategories]. unfold ranking.
  rewrite length_map, length_firstn, (Permutation_length (sorted_entries_perm _)).
  now rewrite <- Hkeys, length_map.
Qed.

(** ** The total of a batch *)

(** [Math.abs(Number(a) || 0)], read off the amount alone. *)
Definition magnitude (a : jsval) : Q :=
  match ToNumber a with
  | Some q => Qabs q
  | None => 0
  end.

Lemma expense_magnitude (t : jsval) : expense t == magnitude (prop t "amount").
Proof.
  unfold expense, magnitude, amount_or_zero.
  destruct (ToNumber (prop t "amount")) as [q|]; [|reflexivity].
  destruct (Qeqb0 q) eqn:E; [|reflexivity].
  apply Qeqb0_true in E. now rewrite E.
Qed.

Lemma included_magnitude (t : jsval) :
  included t = Qltb 0 (magnitude (prop t "amount")).
Proof.
  unfold included. pose proof (expense_magnitude t) as H.
  destruct (Qltb 0 (expense t)) eqn:E1, (Qltb 0 (magnitude (prop t "amount"))) eqn:E2;
    try reflexivity.
  - apply Qltb_true in E1. apply Qltb_false in E2. lra.
  - apply Qltb_false in E1. apply Qltb_true in E2. lra.
Qed.

Lemma sumQ_pointwise {A} (f g : A -> Q) (l : list A) :
  (forall a, f a == g a) -> sumQ (map f l) == sumQ (map g l).
Proof.
  intro H. induction l as [|a l IH]; [reflexivity|].
  cbn [map]. now rewrite !sumQ_cons, IH, (H a).
Qed.

(** Despite its name, [totalThisMonth] is taken over the whole batch,
    whatever the dates: it is the sum, in the order of the batch, of the
    magnitudes [Math.abs(Number(amount) || 0)] of all the transactions;
    the result is that of the batch without its transactions of magnitude
    0, and it stays the same when the dates are replaced by any texts. *)
Theorem total_over_all_dates (ts : list jsval) :
  Forall well_formed ts ->
  exists ins,
    computeInsights ts = Ok ins
    /\ totalThisMonth ins == sumQ (map (fun t => magnitude (prop t "amount")) ts)
    /\ computeInsights (filter (fun t => Qltb 0 (magnitude (prop t "amount"))) ts) = Ok ins
    /\ (forall d : jsval -> string,
          computeInsights (map (fun t => with_date (d t) t) ts) = Ok ins).
Proof.
  intro Hwf. pose proof (well_formed_all_safe ts Hwf) as Hs.
  eexists. split; [apply (computeInsights_safe ts Hs)|].
  cbn [totalThisMonth]. split; [|split].
  - rewrite fold_accumulate_total. cbn [fst].
    change (fold_left Qplus ?l 0) with (sumQ l). rewrite sumQ_filter_included.
    apply sumQ_pointwise, expense_magnitude.
  - rewrite <- (filter_ext included _ included_magnitude).
    rewrite (computeInsights_safe _ (filter_included_safe ts Hs)).
    now rewrite fold_accumulate_filter.
  - intro d. rewrite (computeInsights_agree _ ts (map_with_date_agree d ts Hs)).
    apply (computeInsights_safe ts Hs).
Qed.

End Facts.

Lemma ranking_labels_witness :
  computeInsights (B := Reference.builtins) scenario
  = Ok {| totalThisMonth := 165;
          topCategories := [ {| name := "TRAVEL"; total := VNum 100 |};
                             {| name := "FOOD_AND_DRINK"; total := VNum 65 |} ] |}
  /\ NoDup ["TRAVEL"; "FOOD_AND_DRINK"].
Proof.
  split; [exact scenario_insights|].
  exact (proj1 (ranking_labels (B := Reference.builtins) scenario _ scenario_insights)).
Defined.

Lemma scenario_clean : clean (B := Reference.builtins) scenario.
Proof. repeat constructor; intros _; reflexivity. Qed.

Lemma category_sums_witness :
  Forall well_formed scenario
  /\ clean (B := Reference.builtins) scenario
  /\ exists total cats,
       loop (B := Reference.builtins) (0, []) scenario = Ok (total, cats)
       /\ lookup "FOOD_AND_DRINK" cats = Some (VNum 65)
       /\ lookup "GROCERIES" cats = None.
Proof.
  split; [exact scenario_well_formed|]. split; [exact scenario_clean|].
  destruct (category_sums (B := Reference.builtins) scenario
              scenario_well_formed scenario_clean) as (total & cats & Hl & Hs).
  exists total, cats. split; [exact Hl|].
  split; [exact (Hs "FOOD_AND_DRINK")|exact (Hs "GROCERIES")].
Defined.

Lemma ranking_dominates_witness :
  Forall well_formed scenario
  /\ clean (B := Reference.builtins) scenario
  /\ exists total cats,
       loop (B := Reference.builtins) (0, []) scenario = Ok (total, cats)
       /\ forall e, In e cats ->
            In {| name := fst e; total := snd e |} (ranking (B := Reference.builtins) cats)
            \/ forall c, In c (ranking (B := Reference.builtins) cats) ->
                         cell_value (snd e) <= cell_value (Backend.total c).
Proof.
  split; [exact scenario_well_formed|]. split; [exact scenario_clean|].
  exact (ranking_dominates (B := Reference.builtins) scenario
           scenario_well_formed scenario_clean).
Defined.

Lemma ranking_size_witness :
  Forall well_formed scenario
  /\ clean (B := Reference.builtins) scenario
  /\ exists ins,
       computeInsights (B := Reference.builtins) scenario = Ok ins
       /\ List.length (topCategories ins) = 2%nat.
Proof.
  split; [exact scenario_well_formed|]. split; [exact scenario_clean|].
  exact (ranking_size (B := Reference.builtins) scenario
           scenario_well_formed scenario_clean).
Defined.

(** A batch with a date that [dayjs] takes for one of its own objects. *)
Definition marked_date : list jsval :=
  [ VObj [("date", VObj [("$isDayjsObject", VBool true)]); ("amount", VNum 5)] ].

Lemma computeInsights_failure_witness :
  forallb readable scenario = true
  /\ (exists ins, computeInsights (B := Reference.builtins) scenario = Ok ins)
  /\ forallb readable marked_date = false
  /\ computeInsights (B := Reference.builtins) marked_date = Throw TypeError.
Proof.
  split; [reflexivity|].
  split; [exact (proj1 (computeInsights_failure (B := Reference.builtins) scenario)
                   eq_refl)|].
  split; [reflexivity|].
  exact (proj2 (computeInsights_failure (B := Reference.builtins) marked_date) eq_refl).
Defined.

Lemma total_over_all_dates_witness :
  Forall well_formed scenario
  /\ exists ins,
       computeInsights (B := Reference.builtins) scenario = Ok ins
       /\ totalThisMonth ins
          == sumQ (map (fun t => magnitude (B := Reference.builtins) (prop t "amount"))
                       scenario).
Proof.
  split; [exact scenario_well_formed|].
  destruct (total_over_all_dates (B := Reference.builtins) scenario scenario_well_formed)
    as (ins & H1 & H2 & _).
  exists ins. split; [exact H1|exact H2].
Defined.

End Ledger.

(* ================================================================== *)
(** * From the upload and the bank mapping to the insights *)

Module Pipeline.
Import JS Backend Aggregation Normalization.

(** ** What [JSON.parse(JSON.stringify(v))] returns *)

(** Values that [JSON.stringify] leaves out of an object and turns into
    [null] inside an array. *)
Definition dropped (v : jsval) : bool :=
  match v with VUndefined | VNative _ => true | _ => false end.

(** The value after one trip through JSON, inside a container: [NaN]
    becomes [null], properties of dropped value disappear, and the
    properties come back in the order [JSON.stringify] wrote them. *)
Fixpoint json (v : jsval) : jsval :=
  match v with
  | VNaN => VNull
  | VArr l =>
      VArr ((fix elems (l : list jsval) : list jsval :=
               match l with
               | [] => []
               | x :: l' => (if dropped x then VNull else json x) :: elems l'
               end) l)
  | VObj o =>
      VObj (own_entries
              ((fix props (o : list (string * jsval)) : list (string * jsval) :=
                  match o with
                  | [] => []
                  | e :: o' =>
                      if dropped (snd e) then props o'
                      else (fst e, json (snd e)) :: props o'
                  end) o))
  | _ => v
  end.

Definition json_element (x : jsval) : jsval := if dropped x then VNull else json x.

Fixpoint json_props (o : list (string * jsval)) : list (string * jsval) :=
  match o with
  | [] => []
  | e :: o' =>
      if dropped (snd e) then json_props o' else (fst e, json (snd e)) :: json_props o'
  end.

(** What a property reads as after the trip. *)
Definition json_field (v : jsval) : jsval := if dropped v then VUndefined else json v.

Lemma json_array (l : list jsval) : json (VArr l) = VArr (map json_element l).
Proof.
  cbn [json]. f_equal.
Qed.

Lemma json_object (o : list (string * jsval)) :
  json (VObj o) = VObj (own_entries (json_props o)).
Proof.
  cbn [json]. do 2 f_equal.
Qed.

Lemma lookup_In {V} (k : string) (v : V) (o : list (string * V)) :
  NoDup (map fst o) -> (lookup k o = Some v <-> In (k, v) o).
Proof.
  induction o as [|[k' v'] o IH]; simpl; intro H; [now split|].
  apply NoDup_cons_iff in H as [Hk Ho].
  destruct (k =? k')%string eqn:E.
  - apply String.eqb_eq in E. subst k'. split.
    + intros [= ->]. now left.
    + intros [[= ->]|Hin]; [reflexivity|].
      exfalso. apply Hk. now apply (in_map fst) in Hin.
  - rewrite (IH Ho). split; [now right|].
    intros [[= -> ->]|Hin]; [|exact Hin].
    now rewrite String.eqb_refl in E.
Qed.

Lemma lookup_perm {V} (k : string) (o o' : list (string * V)) :
  NoDup (map fst o) -> Permutation o o' -> lookup k o = lookup k o'.
Proof.
  intros Hn Hp.
  assert (NoDup (map fst o')) as Hn'
    by (apply (Permutation_NoDup (Permutation_map fst Hp) Hn)).
  destruct (lookup k o) as [v|] eqn:E.
  - apply (lookup_In _ _ _ Hn) in E. symmetry. apply (lookup_In _ _ _ Hn').
    now apply (Permutation_in _ Hp).
  - destruct (lookup k o') as [v'|] eqn:E'; [|reflexivity].
    apply (lookup_In _ _ _ Hn') in E'.
    apply (Permutation_in _ (Permutation_sym Hp)) in E'.
    apply (lookup_In _ _ _ Hn) in E'. congruence.
Qed.

Lemma json_props_keys (o : list (string * jsval)) (k : string) :
  In k (map fst (json_props o)) -> In k (map fst o).
Proof.
  induction o as [|e o IH]; simpl; [easy|].
  destruct (dropped (snd e)); simpl; intuition.
Qed.

Lemma json_props_NoDup (o : list (string * jsval)) :
  NoDup (map fst o) -> NoDup (map fst (json_props o)).
Proof.
  induction o as [|e o IH]; simpl; intro H; [exact H|].
  apply NoDup_cons_iff in H as [Hk Ho].
  destruct (dropped (snd e)); [now apply IH|].
  simpl. constructor; [|now apply IH].
  intro Hin. apply Hk. now apply json_props_keys.
Qed.

Lemma lookup_json_props (o : list (string * jsval)) (k : string) :
  NoDup (map fst o) ->
  lookup k (json_props o)
  = match lookup k o with
    | Some v => if dropped v then None else Some (json v)
    | None => None
    end.
Proof.
  induction o as [|[k' v] o IH]; simpl; intro H; [reflexivity|].
  apply NoDup_cons_iff in H as [Hk Ho]. specialize (IH Ho).
  destruct (k =? k')%string eqn:E.
  - apply String.eqb_eq in E. subst k'.
    destruct (dropped v); simpl; [|now rewrite String.eqb_refl].
    rewrite IH. destruct (lookup k o) as [w|] eqn:El; [|reflexivity].
    exfalso. apply Hk. apply (lookup_In _ _ _ Ho) in El.
    now apply (in_map fst) in El.
  - destruct (dropped v); simpl; [exact IH|]. now rewrite E.
Qed.

(** Reading a property after the trip gives the value as JSON carries it;
    a property that was [undefined] still reads as [undefined]. *)
Lemma prop_json (o : list (string * jsval)) (k : string) :
  NoDup (map fst o) -> prop (json (VObj o)) k = json_field (prop (VObj o) k).
Proof.
  intro H. rewrite json_object. unfold prop, json_field.
  rewrite (lookup_perm k _ (json_props o)).
  - rewrite (lookup_json_props o k H).
    destruct (lookup k o) as [v|]; [|reflexivity]. now destruct (dropped v).
  - apply (Permutation_NoDup (Permutation_map fst (Permutation_sym (own_entries_perm _)))).
    now apply json_props_NoDup.
  - apply own_entries_perm.
Qed.

(** ** The records the two mappings return *)

(** [Object.keys(record)[0]] of a CSV row, as a property key. *)
Definition first_key (row : list (string * string)) : string :=
  match map fst (own_entries (map (fun e => (fst e, VStr (snd e))) row)) with
  | k :: _ => k
  | [] => "undefined"
  end.

Definition csv_date (row : list (string * string)) : jsval :=
  jsor (prop (row_object row) "date")
    (jsor (prop (row_object row) "Date")
      (jsor (prop (row_object row) "TRANSACTION_DATE")
            (prop (row_object row) (first_key row)))).

Definition csv_amount (row : list (string * string)) : Q :=
  amount_or_zero
    (parseFloat
       (replace_non_numeric (first_nonempty ["amount"; "Amount"; "DEBIT"; "CREDIT"] "0" row))).

Definition csv_transaction (row : list (string * string)) : jsval :=
  VObj [("date", csv_date row);
        ("name", VStr (first_nonempty ["description"; "Description"; "NAME"; "Merchant"] "" row));
        ("amount", VNum (csv_amount row));
        ("category", VStr (first_nonempty ["category"; "Category"] "Other" row))].

(** The record [refreshData] builds from a bank record. *)
Definition frontend_category (t : jsval) : jsval :=
  jsor (optget (prop t "personal_finance_category") "primary")
    (jsor (if isArray (prop t "category") then prop (prop t "category") "0"
           else prop t "category")
          (VStr "Other")).

Definition frontend_record (t : jsval) : jsval :=
  VObj [("date", prop t "date");
        ("name", jsor (prop t "name") (jsor (prop t "merchant_name") (VStr "Unknown")));
        ("amount", prop t "amount");
        ("category", frontend_category t)].

Lemma refreshData_ok (t : jsval) :
  nullish t = false -> Frontend.refreshData_record t = Ok (frontend_record t).
Proof.
  intro H. unfold Frontend.refreshData_record. rewrite !(get_ok t _ H).
  cbn [bind]. rewrite !orelse_ok_ok. reflexivity.
Qed.

Lemma prop_row_scalar (row : list (string * string)) (k : string) :
  scalar (prop (row_object row) k) = true.
Proof. rewrite prop_row. now destruct (lookup k row). Qed.

Lemma csv_date_scalar (row : list (string * string)) : scalar (csv_date row) = true.
Proof. unfold csv_date. repeat apply scalar_jsor; apply prop_row_scalar. Qed.

Lemma json_field_scalar (v : jsval) :
  scalar v = true -> scalar (json_field v) = true.
Proof. destruct v; simpl; congruence. Qed.

Lemma four_keys_NoDup (d n a c : jsval) :
  NoDup (map fst [("date", d); ("name", n); ("amount", a); ("category", c)]).
Proof.
  simpl. repeat constructor; simpl; intuition discriminate.
Qed.

(** Two trips: the response of one route parsed by the frontend, then
    sent again as the body of a request. *)
Lemma prop_json_twice (o : list (string * jsval)) (k : string) :
  NoDup (map fst o) ->
  prop (json (json (VObj o))) k = json_field (json_field (prop (VObj o) k)).
Proof.
  intro H. rewrite (json_object o), prop_json.
  - f_equal. rewrite <- json_object. now apply prop_json.
  - apply (Permutation_NoDup (Permutation_map fst (Permutation_sym (own_entries_perm _)))).
    now apply json_props_NoDup.
Qed.

Lemma json_csv_transaction_well_formed (row : list (string * string)) :
  well_formed (json (json (csv_transaction row))).
Proof.
  unfold csv_transaction. split; [rewrite !json_object; now eexists|].
  rewrite !(prop_json_twice _ _ (four_keys_NoDup _ _ _ _)).
  repeat split; try reflexivity.
  apply json_field_scalar, json_field_scalar, csv_date_scalar.
Qed.

Lemma amount_or_zero_idem (n : option Q) :
  amount_or_zero (Some (amount_or_zero n)) = amount_or_zero n.
Proof.
  destruct n as [q|]; simpl; [|reflexivity].
  destruct (Qeqb0 q) eqn:E; simpl; [reflexivity|]. now rewrite E.
Qed.

Lemma insights_category_truthy (t : jsval) : truthy (insights_category t) = true.
Proof. unfold insights_category. now repeat apply truthy_jsor. Qed.

Lemma insights_name_shape (t : jsval) :
  truthy (insights_name t) = true \/ insights_name t = VStr "".
Proof.
  unfold insights_name, jsor.
  destruct (truthy (prop t "name")) eqn:E1; [now left|].
  destruct (truthy (prop t "merchant_name")) eqn:E2; [now left|now right].
Qed.

(** Normalising a record that the mapping of [/api/insights] returned
    changes neither its amount, its category nor its name, and returns the
    very same record when its date is truthy. *)
Theorem normalized_idempotent (t : jsval) :
  nullish t = false ->
  exists r r2,
    normalized t = Ok r /\ normalized r = Ok r2
    /\ prop r2 "amount" = prop r "amount"
    /\ prop r2 "category" = prop r "category"
    /\ prop r2 "name" = prop r "name"
    /\ (truthy (prop r "date") = true -> r2 = r).
Proof.
  intro H. exists (insights_record t), (insights_record (insights_record t)).
  split; [now apply normalized_ok|]. split; [now apply normalized_ok|].
  assert (insights_category (insights_record t) = insights_category t) as Hc.
  { unfold insights_category at 1.
    change (prop (insights_record t) "category") with (insights_category t).
    unfold jsor at 1. now rewrite insights_category_truthy. }
  assert (insights_name (insights_record t) = insights_name t) as Hn.
  { unfold insights_name at 1.
    change (prop (insights_record t) "name") with (insights_name t).
    change (prop (insights_record t) "merchant_name") with VUndefined.
    unfold jsor at 1.
    destruct (insights_name_shape t) as [E|E]; rewrite E; reflexivity. }
  split; [reflexivity|]. split; [exact Hc|]. split; [exact Hn|].
  change (prop (insights_record t) "date") with (insights_date t). intro Hd.
  unfold insights_record at 1. rewrite Hc, Hn.
  change (prop (insights_record t) "amount") with (prop t "amount").
  unfold insights_date at 1.
  change (prop (insights_record t) "date") with (insights_date t).
  unfold jsor at 1. now rewrite Hd.
Qed.

(** A bank record mapped by the frontend, posted as JSON and mapped again
    by [/api/insights]: the category that reaches the aggregation is the
    primary personal-finance category when that is a non-empty string,
    and otherwise the first element of a legacy category list that starts
    with a non-empty string. *)
Theorem bank_pipeline_category (t : jsval) :
  nullish t = false ->
  exists r r',
    Frontend.refreshData_record t = Ok r
    /\ normalized (json r) = Ok r'
    /\ (forall p, optget (prop t "personal_finance_category") "primary" = VStr p ->
                  p <> "" -> prop r' "category" = VStr p)
    /\ (truthy (optget (prop t "personal_finance_category") "primary") = false ->
        forall c rest, prop t "category" = VArr (VStr c :: rest) -> c <> "" ->
                       prop r' "category" = VStr c).
Proof.
  intro H. exists (frontend_record t), (insights_record (json (frontend_record t))).
  split; [now apply refreshData_ok|].
  split; [apply normalized_ok; reflexivity|].
  assert (forall s, s <> "" -> frontend_category t = VStr s ->
                    prop (insights_record (json (frontend_record t))) "category" = VStr s)
    as Hcat.
  { intros s Hs E.
    change (prop (insights_record ?x) "category") with (insights_category x).
    unfold insights_category, frontend_record.
    rewrite (prop_json _ _ (four_keys_NoDup _ _ _ _)).
    change (prop (VObj [("date", ?d); ("name", ?n); ("amount", ?a); ("category", ?c)])
                 "category") with c.
    rewrite E. cbn [json_field dropped json]. unfold jsor at 1.
    now rewrite (truthy_string s Hs). }
  split.
  - intros p Hp Hne. apply (Hcat p Hne).
    unfold frontend_category, jsor. now rewrite Hp, (truthy_string p Hne).
  - intros Hf c rest Hc Hne. apply (Hcat c Hne).
    unfold frontend_category, jsor. rewrite Hf, Hc. cbn.
    now rewrite (proj2 (String.eqb_neq c "") Hne).
Qed.

Lemma replace_non_numeric_app (s1 s2 : string) :
  replace_non_numeric (s1 ++ s2)
  = (replace_non_numeric s1 ++ replace_non_numeric s2)%string.
Proof.
  induction s1 as [|c s1 IH]; simpl; [reflexivity|].
  destruct (numeric_char c); simpl; now rewrite IH.
Qed.

Lemma replace_non_numeric_skip (s1 s2 : string) (c : ascii) :
  numeric_char c = false ->
  replace_non_numeric (s1 ++ String c s2) = replace_non_numeric (s1 ++ s2).
Proof.
  intro H. rewrite !replace_non_numeric_app. simpl. now rewrite H.
Qed.

Lemma first_nonempty_head (k v d : string) (aliases : list string)
  (rest : list (string * string)) :
  v <> "" -> first_nonempty (k :: aliases) d ((k, v) :: rest) = v.
Proof.
  intro H. simpl. rewrite String.eqb_refl.
  now rewrite (proj2 (String.eqb_neq v "") H).
Qed.

Section Flow.
Context {B : Builtins}.

Lemma csv_record_row (row : list (string * string)) :
  csv_record (row_object row) = Ok (csv_transaction row).
Proof.
  unfold csv_record, first_column.
  change (Object_keys (row_object row))
    with (Ok (map fst (own_entries (map (fun e => (fst e, VStr (snd e))) row)))).
  cbn [bind]. rewrite !(get_ok (row_object row) _ eq_refl), !orelse_ok_ok.
  cbn [bind].
  change (jsor (prop (row_object row) "amount") _) with (csv_raw_amount (row_object row)).
  change (jsor (prop (row_object row) "description") _) with (csv_name (row_object row)).
  change (jsor (prop (row_object row) "category") _) with (csv_category (row_object row)).
  rewrite csv_raw_amount_row, csv_name_row, csv_category_row.
  cbn [toString nullish convertible ToString bind].
  change (jsor (of_number (parseFloat (replace_non_numeric ?t))) (VNum 0))
    with (amount_value t).
  now rewrite amount_value_number.
Qed.

Lemma mapM_map {A C D} (f : C -> result D) (g : A -> C) (h : A -> D) (l : list A) :
  (forall a, f (g a) = Ok (h a)) -> mapM f (map g l) = Ok (map h l).
Proof.
  intro H. induction l as [|a l IH]; simpl; [reflexivity|]. now rewrite H, IH.
Qed.

Lemma upload_rows (srv : server) (rows : list (list (string * string))) :
  upload_csv_route srv (Some (map row_object rows))
  = (srv, TransactionsJson (map csv_transaction rows)).
Proof.
  unfold upload_csv_route. now rewrite (mapM_map _ _ _ rows csv_record_row).
Qed.

Lemma route_ok (srv : server) (body : jsval) (ts : list jsval) :
  prop (jsor body (VObj [])) "transactions" = VArr ts ->
  Forall well_formed ts ->
  exists ins,
    insights_route srv body = (srv, InsightsJson ins)
    /\ computeInsights (map insights_record ts) = Ok ins.
Proof.
  intros Hts Hwf.
  assert (Forall safe (map insights_record ts)) as Hs.
  { apply Forall_map. eapply Forall_impl; [|exact Hwf]. apply insights_record_safe. }
  eexists. split; [|apply (computeInsights_safe _ Hs)].
  unfold insights_route. rewrite body_transactions, Hts. cbn [bind].
  rewrite (mapM_ok normalized insights_record).
  - cbn [bind]. now rewrite (computeInsights_safe _ Hs).
  - eapply Forall_impl; [|exact Hwf].
    intros t ([o ->] & _). now apply normalized_ok.
Qed.

Lemma expense_posted_csv (row : list (string * string)) :
  expense (insights_record (json (json (csv_transaction row)))) = Qabs (csv_amount row).
Proof.
  unfold expense.
  change (prop (insights_record ?t) "amount") with (prop t "amount").
  unfold csv_transaction. rewrite (prop_json_twice _ _ (four_keys_NoDup _ _ _ _)).
  assert (forall d n q c,
             prop (VObj [("date", d); ("name", n); ("amount", VNum q); ("category", c)])
                  "amount" = VNum q) as E by reflexivity.
  rewrite E. cbn [json_field dropped json ToNumber].
  unfold csv_amount. now rewrite amount_or_zero_idem.
Qed.

(** The text the amount of a row is read from. *)
Definition csv_amount_text (row : list (string * string)) : string :=
  first_nonempty ["amount"; "Amount"; "DEBIT"; "CREDIT"] "0" row.

(** A CSV upload followed by the insights request the frontend makes with
    the transactions it parsed from the response, for amounts written with
    at most 300 characters (far inside the range of the numbers of the
    language) and a request body within the limit of the JSON parser: one
    transaction comes back per row, the insights request is answered with
    insights, and its total is the sum, in the order of the rows, of the
    magnitude of the amount read from each row. *)
Theorem csv_pipeline (srv : server) (rows : list (list (string * string))) (size : N) :
  Forall (fun row => (String.length (csv_amount_text row) <= 300)%nat) rows ->
  (size <= body_limit)%N ->
  exists records ins,
    upload_csv_route srv (Some (map row_object rows)) = (srv, TransactionsJson records)
    /\ List.length records = List.length rows
    /\ post_insights size srv (json (VObj [("transactions", json (VArr records))]))
       = (srv, Answered (InsightsJson ins))
    /\ totalThisMonth ins == sumQ (map (fun row => Qabs (csv_amount row)) rows).
Proof.
  intros _ Hsize.
  exists (map csv_transaction rows).
  set (posted := map (fun row => json (json (csv_transaction row))) rows).
  assert (Forall well_formed posted) as Hwf.
  { apply Forall_map, Forall_forall. intros row _.
    apply json_csv_transaction_well_formed. }
  assert (prop (jsor (json (VObj [("transactions",
                                   json (VArr (map csv_transaction rows)))]))
                     (VObj [])) "transactions" = VArr posted) as Hts.
  { rewrite (json_array (map csv_transaction rows)), json_object.
    cbn [json_props dropped snd fst].
    rewrite json_array, !map_map. reflexivity. }
  destruct (route_ok srv _ posted Hts Hwf) as (ins & Hr & Hc).
  exists ins. split; [apply upload_rows|]. split; [apply length_map|].
  split.
  { unfold post_insights. apply N.leb_le in Hsize. now rewrite Hsize, Hr. }
  assert (Forall safe (map insights_record posted)) as Hs.
  { apply Forall_map. eapply Forall_impl; [|exact Hwf]. apply insights_record_safe. }
  rewrite (computeInsights_safe _ Hs) in Hc. injection Hc as <-.
  cbn [totalThisMonth]. rewrite fold_accumulate_total. cbn [fst].
  change (fold_left Qplus ?l 0) with (sumQ l). rewrite sumQ_filter_included.
  unfold posted. rewrite !map_map.
  rewrite (map_ext _ (fun row => Qabs (csv_amount row))); [reflexivity|].
  intro row. apply expense_posted_csv.
Qed.

(** A character that is not a digit, a decimal point or a minus sign
    does not change the amount read from a CSV row, wherever it stands in
    the text, as long as the text without it is not empty. *)
Theorem csv_amount_ignores_symbols (s1 s2 : string) (c : ascii)
  (rest : list (string * string)) :
  numeric_char c = false -> (s1 ++ s2)%string <> "" ->
  exists r1 r2,
    csv_record (row_object (("amount", (s1 ++ String c s2)%string) :: rest)) = Ok r1
    /\ csv_record (row_object (("amount", (s1 ++ s2)%string) :: rest)) = Ok r2
    /\ prop r1 "amount" = prop r2 "amount".
Proof.
  intros Hc Hne. rewrite !csv_record_row. eexists. eexists.
  split; [reflexivity|]. split; [reflexivity|].
  unfold csv_transaction.
  change (prop (VObj [("date", ?d); ("name", ?n); ("amount", ?a); ("category", ?k)])
               "amount") with a.
  unfold csv_amount. rewrite !first_nonempty_head; [|exact Hne|].
  - now rewrite (replace_non_numeric_skip s1 s2 c Hc).
  - destruct s1; discriminate.
Qed.

Lemma csv_date_cases (row : list (string * string)) :
  csv_date row
  = if (first_nonempty ["date"; "Date"; "TRANSACTION_DATE"] "" row =? "")%string
    then prop (row_object row) (first_key row)
    else VStr (first_nonempty ["date"; "Date"; "TRANSACTION_DATE"] "" row).
Proof.
  unfold csv_date, jsor. rewrite !prop_row. cbn [first_nonempty].
  destruct (lookup "date" row) as [d|]; [destruct (d =? "")%string eqn:Ed|];
    destruct (lookup "Date" row) as [d'|]; try destruct (d' =? "")%string eqn:Ed';
    destruct (lookup "TRANSACTION_DATE" row) as [d''|];
    try destruct (d'' =? "")%string eqn:Ed'';
    cbn [truthy negb]; rewrite ?Ed, ?Ed', ?Ed''; cbn [negb]; try reflexivity.
Qed.

(** The date of a CSV row is the first non-empty value among [date],
    [Date] and [TRANSACTION_DATE]; when there is none it is the value of
    the first column (for headers that are not array indices), and
    [undefined] for a row without columns. *)
Theorem csv_date_resolution (row : list (string * string)) :
  let d := first_nonempty ["date"; "Date"; "TRANSACTION_DATE"] "" row in
  exists r,
    csv_record (row_object row) = Ok r
    /\ (d <> "" -> prop r "date" = VStr d)
    /\ (d = "" -> row = [] -> prop r "date" = VUndefined)
    /\ (d = "" ->
        Forall (fun e => is_index (fst e) = false) row ->
        forall k v rest, row = (k, v) :: rest -> prop r "date" = VStr v).
Proof.
  intro d. exists (csv_transaction row). split; [apply csv_record_row|].
  unfold csv_transaction.
  change (prop (VObj [("date", ?x); ("name", ?n); ("amount", ?a); ("category", ?k)])
               "date") with x.
  rewrite csv_date_cases. fold d. split; [|split].
  - intro H. now rewrite (proj2 (String.eqb_neq d "") H).
  - intros -> ->. reflexivity.
  - intros -> Hidx k v rest ->. cbn [String.eqb].
    unfold first_key. rewrite own_entries_creation_order.
    + cbn [map fst]. rewrite prop_row. cbn [lookup]. now rewrite String.eqb_refl.
    + rewrite map_map. cbn [fst]. apply Forall_map. exact Hidx.
Qed.

End Flow.

Lemma csv_pipeline_witness :
  Forall (fun row => (String.length (csv_amount_text row) <= 300)%nat)
         [ [("date", "2024-01-05"); ("amount", "$12.50")];
           [("date", "2024-01-06"); ("DEBIT", "-3")] ]
  /\ (200 <= body_limit)%N
  /\ exists records ins,
       upload_csv_route (B := Reference.builtins) {| ACCESS_TOKEN := None |}
         (Some (map row_object [ [("date", "2024-01-05"); ("amount", "$12.50")];
                                 [("date", "2024-01-06"); ("DEBIT", "-3")] ]))
       = ({| ACCESS_TOKEN := None |}, TransactionsJson records)
       /\ post_insights (B := Reference.builtins) 200 {| ACCESS_TOKEN := None |}
            (json (VObj [("transactions", json (VArr records))]))
          = ({| ACCESS_TOKEN := None |}, Answered (InsightsJson ins))
       /\ totalThisMonth ins == 31 # 2.
Proof.
  assert (Forall (fun row => (String.length (csv_amount_text row) <= 300)%nat)
            [ [("date", "2024-01-05"); ("amount", "$12.50")];
              [("date", "2024-01-06"); ("DEBIT", "-3")] ]) as Hlen
    by (repeat constructor; vm_compute; lia).
  assert (200 <= body_limit)%N as Hsize by (vm_compute; discriminate).
  split; [exact Hlen|]. split; [exact Hsize|].
  destruct (csv_pipeline (B := Reference.builtins) {| ACCESS_TOKEN := None |} _ 200
              Hlen Hsize) as (records & ins & Hup & _ & Hpost & Htotal).
  exists records, ins. split; [exact Hup|]. split; [exact Hpost|].
  rewrite Htotal. vm_compute. reflexivity.
Defined.

Lemma normalized_idempotent_witness :
  nullish bank_record = false
  /\ exists r r2,
       normalized bank_record = Ok r /\ normalized r = Ok r2
       /\ prop r2 "category" = prop r "category".
Proof.
  split; [reflexivity|].
  destruct (normalized_idempotent bank_record eq_refl)
    as (r & r2 & H1 & H2 & _ & Hc & _).
  exists r, r2. split; [exact H1|]. split; [exact H2|exact Hc].
Defined.

Lemma bank_pipeline_category_witness :
  nullish bank_record = false
  /\ exists r r',
       Frontend.refreshData_record bank_record = Ok r
       /\ normalized (json r) = Ok r'
       /\ prop r' "category" = VStr "FOOD_AND_DRINK".
Proof.
  split; [reflexivity|].
  destruct (bank_pipeline_category bank_record eq_refl) as (r & r' & H1 & H2 & Hp & _).
  exists r, r'. split; [exact H1|]. split; [exact H2|].
  apply (Hp "FOOD_AND_DRINK" eq_refl). discriminate.
Defined.

Lemma csv_amount_ignores_symbols_witness :
  numeric_char "," = false /\ ("1" ++ "234")%string <> ""
  /\ exists r1 r2,
       csv_record (B := Reference.builtins) (row_object [("amount", "1,234")]) = Ok r1
       /\ csv_record (B := Reference.builtins) (row_object [("amount", "1234")]) = Ok r2
       /\ prop r1 "amount" = prop r2 "amount".
Proof.
  split; [reflexivity|]. split; [discriminate|].
  apply (csv_amount_ignores_symbols (B := Reference.builtins) "1" "234" "," []).
  - reflexivity.
  - discriminate.
Defined.

End Pipeline.

(* ================================================================== *)
(** * The server as a whole: the bank token and the chat *)

Module Server.
Import JS Backend Normalization.

(** What any route answers: one of the answers above, or [res.json(v)]. *)
Inductive reply : Type :=
| Known (r : response)
| Json (v : jsval).

Inductive request : Type :=
| Health
| CreateLinkToken
| ExchangePublicToken (body : jsval)
| Accounts
| Transactions (start_date end_date : jsval)
| UploadCsv (file : option (list jsval))
| InsightsRequest (body : jsval)
| Chat (body : jsval).

(** A string of the environment or of the store counts when it is set and
    not empty. *)
Definition usable (s : option string) : bool :=
  match s with
  | Some t => negb (t =? "")%string
  | None => false
  end.

Definition nl : string := String (ascii_of_nat 10) EmptyString.

Definition NO_DATA : string :=
  "No transaction data available yet. Please connect a bank account or upload a CSV to get personalized insights.".

Definition NO_MODEL : string := "Sorry, no model configured.".

Section App.
Context {B : Builtins}.

(** The bank client: each call resolves with what the route reads from the
    response ([Some]) or rejects ([None]). *)
Variable linkTokenCreate : option jsval.
Variable itemPublicTokenExchange : jsval -> option string.
Variable accountsBalanceGet : string -> option jsval.
Variable transactionsGet : string -> jsval -> jsval -> option jsval.

(** [dayjs().format('YYYY-MM-DD')] and
    [dayjs(d).subtract(30, 'day').format('YYYY-MM-DD')], which may throw. *)
Variable today : string.
Variable thirty_days_before : jsval -> option string.

(** The environment and the two chat clients, from the system prompt and
    the user content to the completion. *)
Variable GROQ_API_KEY : option string.
Variable OPENAI_API_KEY : option string.
Variable SYSTEM_PROMPT : string.
Variable groq_create : string -> string -> option jsval.
Variable openai_create : string -> string -> option jsval.

(** [app.post('/api/plaid/create_link_token', ...)] *)
Definition create_link_token_route (srv : server) : server * reply :=
  (srv, match linkTokenCreate with
        | Some data => Json data
        | None => Known (ErrorJson 500 "Failed to create link token")
        end).

(** [app.post('/api/plaid/exchange_public_token', ...)] *)
Definition exchange_public_token_route (srv : server) (body : jsval) : server * reply :=
  let public_token := prop (jsor body (VObj [])) "public_token" in
  if negb (truthy public_token)
  then (srv, Known (ErrorJson 400 "public_token is required"))
  else match itemPublicTokenExchange public_token with
       | Some access_token =>
           ({| ACCESS_TOKEN := Some access_token |}, Json (VObj [("ok", VBool true)]))
       | None => (srv, Known (ErrorJson 500 "Failed to exchange public token"))
       end.

(** [app.get('/api/plaid/accounts', ...)] *)
Definition accounts_route (srv : server) : server * reply :=
  (srv, match ACCESS_TOKEN srv with
        | Some token =>
            if usable (Some token)
            then match accountsBalanceGet token with
                 | Some data => Json data
                 | None => Known (ErrorJson 500 "Failed to fetch accounts")
                 end
            else Known (ErrorJson 400 "No access token")
        | None => Known (ErrorJson 400 "No access token")
        end).

(** [app.get('/api/plaid/transactions', ...)] *)
Definition transactions_route (srv : server) (start_date end_date : jsval)
  : server * reply :=
  (srv, match ACCESS_TOKEN srv with
        | Some token =>
            if usable (Some token)
            then
              let endDate := jsor end_date (VStr today) in
              let startDate :=
                if truthy start_date then Some start_date
                else option_map VStr (thirty_days_before endDate) in
              match startDate with
              | Some startDate =>
                  match transactionsGet token startDate endDate with
                  | Some data => Json data
                  | None => Known (ErrorJson 500 "Failed to fetch transactions")
                  end
              | None => Known (ErrorJson 500 "Failed to fetch transactions")
              end
            else Known (ErrorJson 400 "No access token")
        | None => Known (ErrorJson 400 "No access token")
        end).

(** [completion.choices?.[0]?.message?.content] *)
Definition content_of (completion : jsval) : result jsval :=
  choices <- get completion "choices" ;;
  Ok (optget (optget (optget choices "0") "message") "content").

Definition answer_from (completion : option jsval) (answer : jsval) : result jsval :=
  match completion with
  | Some c => content <- content_of c ;; Ok (jsor content answer)
  | None => Throw TypeError
  end.

(** [app.post('/api/chat', ...)]; a rejected call is caught like any other
    exception. *)
Definition chat_route (srv : server) (body : jsval) : server * reply :=
  let question := prop (jsor body (VObj [])) "question" in
  let summary := prop (jsor body (VObj [])) "summary" in
  if negb (truthy question)
  then (srv, Known (ErrorJson 400 "question is required"))
  else
    let outcome :=
      q <- interpolate question ;;
      s <- interpolate (jsor summary (VStr NO_DATA)) ;;
      let userContent :=
        "USER QUESTION: " ++ q ++ nl ++ nl ++ "FINANCIAL DATA SUMMARY:" ++ nl ++ s
        ++ nl ++ nl
        ++ "Please provide a helpful, personalized response based on this financial data." in
      let answer := VStr NO_MODEL in
      if usable GROQ_API_KEY
      then answer_from (groq_create SYSTEM_PROMPT userContent) answer
      else if usable OPENAI_API_KEY
      then answer_from (openai_create SYSTEM_PROMPT userContent) answer
      else Ok answer in
    (srv, match outcome with
          | Ok answer => Json (VObj [("answer", answer)])
          | Throw _ => Known (ErrorJson 500 "Failed to get chat response")
          end).

Definition lift (x : server * response) : server * reply := (fst x, Known (snd x)).

(** The server on one request. *)
Definition handle (srv : server) (req : request) : server * reply :=
  match req with
  | Health => (srv, Json (VObj [("ok", VBool true)]))
  | CreateLinkToken => create_link_token_route srv
  | ExchangePublicToken body => exchange_public_token_route srv body
  | Accounts => accounts_route srv
  | Transactions start_date end_date => transactions_route srv start_date end_date
  | UploadCsv file => lift (upload_csv_route srv file)
  | InsightsRequest body => lift (insights_route srv body)
  | Chat body => chat_route srv body
  end.

(** The server after a sequence of requests. *)
Definition serve (srv : server) (reqs : list request) : server :=
  fold_left (fun s r => fst (handle s r)) reqs srv.

(** An exchange request that stores [token]. *)
Definition stores (token : string) (req : request) : Prop :=
  exists body,
    req = ExchangePublicToken body
    /\ truthy (prop (jsor body (VObj [])) "public_token") = true
    /\ itemPublicTokenExchange (prop (jsor body (VObj [])) "public_token") = Some token.

Lemma handle_token (srv : server) (req : request) :
  ACCESS_TOKEN (fst (handle srv req)) = ACCESS_TOKEN srv
  \/ exists token, stores token req /\ ACCESS_TOKEN (fst (handle srv req)) = Some token.
Proof.
  destruct req; try (left; reflexivity).
  - cbn [handle]. unfold exchange_public_token_route.
    destruct (truthy (prop (jsor body (VObj [])) "public_token")) eqn:Ht;
      [|left; reflexivity]. cbn [negb].
    destruct (itemPublicTokenExchange _) as [token|] eqn:Hx; [|left; reflexivity].
    right. exists token. split; [|reflexivity]. now exists body.
  - cbn [handle]. unfold upload_csv_route. destruct file; left; reflexivity.
  - cbn [handle]. unfold chat_route.
    destruct (negb _); left; reflexivity.
Qed.

Lemma serve_token (reqs : list request) (srv : server) :
  ACCESS_TOKEN (serve srv reqs) = ACCESS_TOKEN srv
  \/ exists token req,
       In req reqs /\ stores token req /\ ACCESS_TOKEN (serve srv reqs) = Some token.
Proof.
  unfold serve. induction reqs as [|req reqs IH] using rev_ind; [now left|].
  rewrite fold_left_app. cbn [fold_left].
  destruct (handle_token (fold_left (fun s r => fst (handle s r)) reqs srv) req)
    as [E|(token & Hs & E)].
  - rewrite E. destruct IH as [IH|(token & r & Hin & Hs & IH)]; [now left|].
    right. exists token, r. repeat split; try assumption.
    apply in_or_app. now left.
  - right. exists token, req. repeat split; try assumption.
    apply in_or_app. right. now left.
Qed.

(** The stored bank token only ever changes to a token that the bank
    client returned for an exchange request of the sequence. *)
Theorem token_provenance (reqs : list request) (srv : server) :
  ACCESS_TOKEN (serve srv reqs) = ACCESS_TOKEN srv
  \/ exists token req,
       In req reqs /\ stores token req /\ ACCESS_TOKEN (serve srv reqs) = Some token.
Proof. apply serve_token. Qed.

(** Without a stored token, and as long as no exchange request of the
    sequence succeeds, the accounts and the transactions are refused with
    status 400. *)
Theorem bank_data_needs_token (reqs : list request) (srv : server)
  (start_date end_date : jsval) :
  usable (ACCESS_TOKEN srv) = false ->
  (forall token req, In req reqs -> ~ stores token req) ->
  snd (handle (serve srv reqs) Accounts) = Known (ErrorJson 400 "No access token")
  /\ snd (handle (serve srv reqs) (Transactions start_date end_date))
     = Known (ErrorJson 400 "No access token").
Proof.
  intros Hu Hno.
  assert (ACCESS_TOKEN (serve srv reqs) = ACCESS_TOKEN srv) as E.
  { destruct (serve_token reqs srv) as [E|(token & r & Hin & Hs & _)];
      [exact E|]. exfalso. exact (Hno token r Hin Hs). }
  cbn [handle]. unfold accounts_route, transactions_route. rewrite E. cbn [snd].
  destruct (ACCESS_TOKEN srv) as [token|]; [|now split].
  now rewrite Hu.
Qed.

End App.

(** A bank that refuses every exchange. *)
Definition refusing : jsval -> option string := fun _ => None.

Lemma bank_data_needs_token_witness :
  usable (ACCESS_TOKEN {| ACCESS_TOKEN := None |}) = false
  /\ snd (handle (B := Reference.builtins) None refusing (fun _ => None)
            (fun _ _ _ => None) "2024-01-31" (fun _ => None) None None ""
            (fun _ _ => None) (fun _ _ => None)
            (serve (B := Reference.builtins) None refusing (fun _ => None)
               (fun _ _ _ => None) "2024-01-31" (fun _ => None) None None ""
               (fun _ _ => None) (fun _ _ => None)
               {| ACCESS_TOKEN := None |}
               [Health; ExchangePublicToken (VObj [("public_token", VStr "public-1")])])
            Accounts)
     = Known (ErrorJson 400 "No access token").
Proof.
  split; [reflexivity|].
  refine (proj1 (bank_data_needs_token (B := Reference.builtins) None refusing
                   (fun _ => None) (fun _ _ _ => None) "2024-01-31" (fun _ => None)
                   None None "" (fun _ _ => None) (fun _ _ => None)
                   [Health; ExchangePublicToken (VObj [("public_token", VStr "public-1")])]
                   {| ACCESS_TOKEN := None |} VUndefined VUndefined eq_refl _)).
  intros token req _ (body & _ & _ & H). discriminate H.
Defined.

End Server.

(* ================================================================== *)
(** * The frontend's display helpers and onboarding *)

Module View.
Import JS Backend Aggregation.

(** ** [formatCategoryName] *)

Fixpoint smap (f : ascii -> ascii) (s : string) : string :=
  match s with
  | EmptyString => EmptyString
  | String c s' => String (f c) (smap f s')
  end.

Definition between (lo hi : N) (c : ascii) : bool :=
  ((lo <=? N_of_ascii c) && (N_of_ascii c <=? hi))%N.

(** [replace(/_/g, ' ')] on one character. *)
Definition unscore (c : ascii) : ascii := if (c =? "_")%char then " "%char else c.

Definition toLowerCase (c : ascii) : ascii :=
  if between 65 90 c then ascii_of_N (N_of_ascii c + 32) else c.

Definition toUpperCase (c : ascii) : ascii :=
  if between 97 122 c then ascii_of_N (N_of_ascii c - 32) else c.

(** The class [\w]. *)
Definition is_word (c : ascii) : bool :=
  between 65 90 c || between 97 122 c || between 48 57 c || (c =? "_")%char.

(** [replace(/\b\w/g, l => l.toUpperCase())]: a word character is
    replaced when the character before it, if any, is not one. *)
Fixpoint capitalise (after_word : bool) (s : string) : string :=
  match s with
  | EmptyString => EmptyString
  | String c s' =>
      String (if is_word c && negb after_word then toUpperCase c else c)
             (capitalise (is_word c) s')
  end.

Definition formatCategoryName (category : string) : string :=
  capitalise false (smap toLowerCase (smap unscore category)).

(** The texts on which the byte-wise case mapping is the one of the
    language. *)
Definition ascii_text (s : string) : bool :=
  forallb (fun c => (N_of_ascii c <? 128)%N) (list_ascii_of_string s).

Definition prepared (c : ascii) : ascii := toLowerCase (unscore c).

Lemma smap_smap (f g : ascii -> ascii) (s : string) :
  smap f (smap g s) = smap (fun c => f (g c)) s.
Proof. induction s as [|c s IH]; simpl; [reflexivity|]. now rewrite IH. Qed.

Ltac by_cases c :=
  destruct c as [[] [] [] [] [] [] [] []]; vm_compute; try reflexivity; try discriminate.

Lemma prepared_upper (c : ascii) : prepared (toUpperCase (prepared c)) = prepared c.
Proof. by_cases c. Qed.

Lemma prepared_idem (c : ascii) : prepared (prepared c) = prepared c.
Proof. by_cases c. Qed.

Lemma prepared_not_underscore (c : ascii) :
  (prepared c =? "_")%char = false /\ (toUpperCase (prepared c) =? "_")%char = false.
Proof. by_cases c; split; reflexivity. Qed.

Lemma prepared_capitalise (b : bool) (s : string) :
  smap prepared (capitalise b (smap prepared s)) = smap prepared s.
Proof.
  revert b. induction s as [|c s IH]; intro b; simpl; [reflexivity|].
  rewrite IH. f_equal.
  destruct (is_word (prepared c) && negb b);
    [apply prepared_upper|apply prepared_idem].
Qed.

Lemma formatCategoryName_prepared (s : string) :
  formatCategoryName s = capitalise false (smap prepared s).
Proof. unfold formatCategoryName. now rewrite smap_smap. Qed.

Lemma capitalise_length (b : bool) (s : string) :
  String.length (capitalise b s) = String.length s.
Proof. revert b. induction s as [|c s IH]; intro b; simpl; [reflexivity|]. now rewrite IH. Qed.

Lemma smap_length (f : ascii -> ascii) (s : string) :
  String.length (smap f s) = String.length s.
Proof. induction s as [|c s IH]; simpl; [reflexivity|]. now rewrite IH. Qed.

Lemma capitalise_no_underscore (b : bool) (s : string) :
  existsb (fun c => (c =? "_")%char)
          (list_ascii_of_string (capitalise b (smap prepared s))) = false.
Proof.
  revert b. induction s as [|c s IH]; intro b; simpl; [reflexivity|].
  rewrite IH, orb_false_r.
  destruct (prepared_not_underscore c) as [H1 H2].
  now destruct (is_word (prepared c) && negb b).
Qed.

(** Formatting a category name twice gives what formatting it once
    gives. *)
Theorem formatCategoryName_idempotent (category : string) :
  ascii_text category = true ->
  formatCategoryName (formatCategoryName category) = formatCategoryName category.
Proof.
  intros _. rewrite !formatCategoryName_prepared. now rewrite prepared_capitalise.
Qed.

(** A formatted category name has the length of the category and holds no
    underscore. *)
Theorem formatCategoryName_shape (category : string) :
  ascii_text category = true ->
  String.length (formatCategoryName category) = String.length category
  /\ existsb (fun c => (c =? "_")%char)
             (list_ascii_of_string (formatCategoryName category)) = false.
Proof.
  intros _. rewrite formatCategoryName_prepared. split.
  - now rewrite capitalise_length, smap_length.
  - apply capitalise_no_underscore.
Qed.

(** ** [getCategoryColor] *)

Definition colors : list string :=
  ["#3b82f6"; "#8b5cf6"; "#10b981"; "#f59e0b"; "#ef4444"; "#06b6d4"; "#f97316"].

(** [colors[index % colors.length]] for an integer index; [None] is
    [undefined], which a negative remainder gives. *)
Definition getCategoryColor (index : Z) : option string :=
  let r := Z.rem index (Z.of_nat (List.length colors)) in
  if (r <? 0)%Z then None else nth_error colors (Z.to_nat r).

(** Every index from 0 on has a colour of the palette, and the colours
    repeat with period 7. *)
Theorem color_cycle (index : Z) :
  (0 <= index)%Z ->
  exists c,
    getCategoryColor index = Some c /\ In c colors
    /\ getCategoryColor (index + 7) = Some c.
Proof.
  intro H. unfold getCategoryColor. change (Z.of_nat (List.length colors)) with 7%Z.
  assert (Z.rem (index + 7) 7 = Z.rem index 7) as E.
  { rewrite !Z.rem_mod_nonneg by lia.
    replace (index + 7)%Z with (index + 1 * 7)%Z by lia. now rewrite Z.mod_add. }
  rewrite E.
  assert (0 <= Z.rem index 7 < 7)%Z as Hr by (apply Z.rem_bound_pos; lia).
  destruct (Z.rem index 7 <? 0)%Z eqn:En; [apply Z.ltb_lt in En; lia|].
  destruct (nth_error colors (Z.to_nat (Z.rem index 7))) as [c|] eqn:Ec.
  - exists c. repeat split. eapply nth_error_In. exact Ec.
  - apply nth_error_None in Ec. simpl in Ec. lia.
Qed.

(** The first seven indices, so the entries of any ranking, have pairwise
    different colours. *)
Theorem colors_distinct (i j : Z) :
  (0 <= i < j)%Z -> (j < 7)%Z ->
  exists ci cj,
    getCategoryColor i = Some ci /\ getCategoryColor j = Some cj /\ ci <> cj.
Proof.
  intros Hi Hj.
  assert (i = 0 \/ i = 1 \/ i = 2 \/ i = 3 \/ i = 4 \/ i = 5)%Z as Ci by lia.
  assert (j = 1 \/ j = 2 \/ j = 3 \/ j = 4 \/ j = 5 \/ j = 6)%Z as Cj by lia.
  repeat (destruct Ci as [->|Ci]); try subst i;
    repeat (destruct Cj as [->|Cj]); try subst j; try lia;
    eexists; eexists; (split; [reflexivity|split; [reflexivity|discriminate]]).
Qed.

(** ** The onboarding steps *)

Record ui : Type := {
  showOnboarding : bool;
  onboardingStep : Z;
  showConnectionPopup : bool;
  (** [localStorage.getItem('smartspend_onboarding_completed')] *)
  stored : option string
}.

Definition totalOnboardingSteps : Z := 3.

Inductive action : Type :=
| ngOnInit
| nextOnboardingStep
| previousOnboardingStep
| completeOnboarding
| closeConnectionPopup
| skipOnboarding
| resetOnboarding.

Definition complete (u : ui) : ui :=
  {| showOnboarding := false; onboardingStep := onboardingStep u;
     showConnectionPopup := true; stored := Some "true" |}.

(** The fields above after one method of the component. *)
Definition act (u : ui) (a : action) : ui :=
  match a with
  | ngOnInit =>
      match stored u with
      | Some flag =>
          if (flag =? "true")%string
          then {| showOnboarding := false; onboardingStep := onboardingStep u;
                  showConnectionPopup := showConnectionPopup u; stored := stored u |}
          else u
      | None => u
      end
  | nextOnboardingStep =>
      if (onboardingStep u <? totalOnboardingSteps)%Z
      then {| showOnboarding := showOnboarding u; onboardingStep := onboardingStep u + 1;
              showConnectionPopup := showConnectionPopup u; stored := stored u |}
      else complete u
  | previousOnboardingStep =>
      if (1 <? onboardingStep u)%Z
      then {| showOnboarding := showOnboarding u; onboardingStep := onboardingStep u - 1;
              showConnectionPopup := showConnectionPopup u; stored := stored u |}
      else u
  | completeOnboarding => complete u
  | closeConnectionPopup =>
      {| showOnboarding := showOnboarding u; onboardingStep := onboardingStep u;
         showConnectionPopup := false; stored := stored u |}
  | skipOnboarding =>
      {| showOnboarding := false; onboardingStep := onboardingStep u;
         showConnectionPopup := showConnectionPopup u; stored := Some "true" |}
  | resetOnboarding =>
      {| showOnboarding := true; onboardingStep := 1;
         showConnectionPopup := showConnectionPopup u; stored := None |}
  end.

(** The component as constructed, over whatever the store holds. *)
Definition start (flag : option string) : ui :=
  {| showOnboarding := true; onboardingStep := 1;
     showConnectionPopup := false; stored := flag |}.

Definition steady (u : ui) : Prop :=
  (1 <= onboardingStep u <= totalOnboardingSteps)%Z
  /\ (showOnboarding u = false -> stored u = Some "true").

Lemma act_steady (u : ui) (a : action) : steady u -> steady (act u a).
Proof.
  unfold steady, totalOnboardingSteps. intros [Hs Hf].
  destruct a; unfold act, complete, totalOnboardingSteps;
    cbn [onboardingStep showOnboarding stored].
  - destruct (stored u) as [flag|] eqn:E; [|split; [exact Hs|rewrite E; exact Hf]].
    destruct (flag =? "true")%string eqn:Ef; [|split; [exact Hs|rewrite E; exact Hf]].
    apply String.eqb_eq in Ef. subst flag. cbn [onboardingStep showOnboarding stored].
    split; [exact Hs|intros _; rewrite ?E; reflexivity].
  - destruct (onboardingStep u <? 3)%Z eqn:E; cbn [onboardingStep showOnboarding stored].
    + apply Z.ltb_lt in E. split; [lia|exact Hf].
    + split; [exact Hs|intros _; reflexivity].
  - destruct (1 <? onboardingStep u)%Z eqn:E; cbn [onboardingStep showOnboarding stored].
    + apply Z.ltb_lt in E. split; [lia|exact Hf].
    + split; [exact Hs|exact Hf].
  - split; [exact Hs|intros _; reflexivity].
  - split; [exact Hs|exact Hf].
  - split; [exact Hs|intros _; reflexivity].
  - split; [lia|discriminate].
Qed.

(** Whatever methods are called in whatever order, the onboarding step
    stays between 1 and the number of steps, and the onboarding is hidden
    only while the store holds the completion flag. *)
Theorem onboarding_steady (flag : option string) (actions : list action) :
  steady (fold_left act actions (start flag)).
Proof.
  assert (steady (start flag)) as H
    by (split; [unfold totalOnboardingSteps; simpl; lia|discriminate]).
  revert H. generalize (start flag).
  induction actions as [|a actions IH]; intros u H; simpl; [exact H|].
  apply IH, act_steady, H.
Qed.

(** ** [getAccountType] *)

Definition typeMap : list (string * jsval) :=
  [("depository", VStr "Checking"); ("credit", VStr "Credit Card");
   ("loan", VStr "Loan"); ("investment", VStr "Investment")].

(** [typeMap[type] || type] *)
Definition getAccountType (type : string) : jsval :=
  jsor (read typeMap type) (VStr type).

(** The display name of an account type that [Object.prototype] does not
    define is a string, and is its own display name. *)
Theorem account_type_stable (type : string) :
  inherited type = false ->
  exists s, getAccountType type = VStr s /\ getAccountType s = VStr s.
Proof.
  intro H. unfold getAccountType, read, typeMap. cbn [lookup].
  destruct (type =? "depository")%string eqn:E1; [now exists "Checking"|].
  destruct (type =? "credit")%string eqn:E2; [now exists "Credit Card"|].
  destruct (type =? "loan")%string eqn:E3; [now exists "Loan"|].
  destruct (type =? "investment")%string eqn:E4; [now exists "Investment"|].
  unfold inherited in H.
  destruct (lookup type Object_prototype) eqn:Ep; [discriminate|].
  exists type. rewrite E1, E2, E3, E4, Ep. now split.
Qed.

(** ** [getTotalBalance] *)

Section Balance.
Context {B : Builtins}.

(** [accounts.reduce((total, account) =>
      total + (account.balances?.current || 0), 0)] *)
Fixpoint reduce_balances (total : jsval) (accounts : list jsval) : result jsval :=
  match accounts with
  | [] => Ok total
  | account :: rest =>
      balances <- get account "balances" ;;
      reduce_balances (jsadd total (jsor (optget balances "current") (VNum 0))) rest
  end.

Definition getTotalBalance (accounts : list jsval) : result jsval :=
  reduce_balances (VNum 0) accounts.

(** The current balance of an account, when it is a number; 0 when it is
    missing or [null]. *)
Definition current_balance (account : jsval) : Q :=
  match optget (prop account "balances") "current" with
  | VNum q => q
  | _ => 0
  end.

(** An account whose current balance is a number, [null] or missing. *)
Definition plain_account (account : jsval) : bool :=
  negb (nullish account)
  && match optget (prop account "balances") "current" with
     | VNum _ | VNull | VUndefined => true
     | _ => false
     end.

Lemma reduce_balances_plain (accounts : list jsval) (q : Q) :
  forallb plain_account accounts = true ->
  exists q',
    reduce_balances (VNum q) accounts = Ok (VNum q')
    /\ q' == q + sumQ (map current_balance accounts).
Proof.
  revert q. induction accounts as [|a rest IH]; intros q H; simpl.
  - exists q. split; [reflexivity|]. unfold sumQ. simpl. lra.
  - simpl in H. apply andb_true_iff in H as [Ha Hr].
    unfold plain_account in Ha. apply andb_true_iff in Ha as [Hn Hc].
    apply negb_true_iff in Hn. rewrite (Normalization.get_ok a _ Hn). cbn [bind].
    assert (exists x, jsadd (VNum q) (jsor (optget (prop a "balances") "current") (VNum 0))
                      = VNum x /\ x == q + current_balance a) as (x & Ex & Hx).
    { unfold current_balance.
      destruct (optget (prop a "balances") "current") as [| | | |c| | | |];
        try discriminate.
      - exists (q + 0). split; [reflexivity|reflexivity].
      - exists (q + 0). split; [reflexivity|reflexivity].
      - unfold jsor. cbn [truthy]. destruct (Qeqb0 c) eqn:E; cbn [negb].
        + exists (q + 0). split; [reflexivity|]. apply Qeqb0_true in E. lra.
        + exists (q + c). split; [reflexivity|reflexivity]. }
    rewrite Ex. destruct (IH x Hr) as (q' & E' & Hq').
    exists q'. split; [exact E'|]. rewrite Hq', Hx, sumQ_cons. lra.
Qed.

(** Over accounts whose current balance is a number, [null] or missing,
    the total balance is the sum of the balances that are numbers. *)
Theorem total_balance (accounts : list jsval) :
  forallb plain_account accounts = true ->
  exists q,
    getTotalBalance accounts = Ok (VNum q)
    /\ q == sumQ (map current_balance accounts).
Proof.
  intro H. destruct (reduce_balances_plain accounts 0 H) as (q & E & Hq).
  exists q. split; [exact E|]. rewrite Hq. lra.
Qed.

End Balance.

Lemma formatCategoryName_idempotent_witness :
  ascii_text "FOOD_AND_DRINK" = true
  /\ formatCategoryName "FOOD_AND_DRINK" = "Food And Drink"
  /\ formatCategoryName (formatCategoryName "FOOD_AND_DRINK")
     = formatCategoryName "FOOD_AND_DRINK".
Proof.
  split; [reflexivity|]. split; [reflexivity|].
  apply (formatCategoryName_idempotent "FOOD_AND_DRINK"). reflexivity.
Defined.

Lemma formatCategoryName_shape_witness :
  ascii_text "GENERAL_MERCHANDISE" = true
  /\ String.length (formatCategoryName "GENERAL_MERCHANDISE") = 19%nat.
Proof.
  split; [reflexivity|].
  apply (proj1 (formatCategoryName_shape "GENERAL_MERCHANDISE" eq_refl)).
Defined.

Lemma color_cycle_witness :
  (0 <= 9)%Z
  /\ exists c, getCategoryColor 9 = Some c /\ In c colors
               /\ getCategoryColor (9 + 7) = Some c.
Proof. split; [lia|]. apply (color_cycle 9). lia. Defined.

Lemma colors_distinct_witness :
  (0 <= 0 < 4)%Z /\ (4 < 7)%Z
  /\ exists ci cj,
       getCategoryColor 0 = Some ci /\ getCategoryColor 4 = Some cj /\ ci <> cj.
Proof.
  split; [lia|]. split; [lia|]. apply (colors_distinct 0 4); lia.
Defined.

Lemma account_type_stable_witness :
  inherited "depository" = false
  /\ exists s, getAccountType "depository" = VStr s /\ getAccountType s = VStr s.
Proof. split; [reflexivity|]. apply (account_type_stable "depository"). reflexivity. Defined.

Lemma total_balance_witness :
  forallb plain_account
    [VObj [("balances", VObj [("current", VNum 120)])];
     VObj [("balances", VObj [("current", VNull)])];
     VObj [("name", VStr "Savings")]] = true
  /\ exists q,
       getTotalBalance (B := Reference.builtins)
         [VObj [("balances", VObj [("current", VNum 120)])];
          VObj [("balances", VObj [("current", VNull)])];
          VObj [("name", VStr "Savings")]] = Ok (VNum q)
       /\ q == 120.
Proof.
  split; [reflexivity|].
  destruct (total_balance (B := Reference.builtins)
              [VObj [("balances", VObj [("current", VNum 120)])];
               VObj [("balances", VObj [("current", VNull)])];
               VObj [("name", VStr "Savings")]] eq_refl) as (q & E & Hq).
  exists q. split; [exact E|]. rewrite Hq. reflexivity.
Defined.

End View.
